(** * StatArb: spread / z-score engine and position state machine

    A shallow embedding of [statarb.py] (class [StatArb]):
    - [calculate_spread_and_zscore]: merge of the two candle frames,
      hedge-adjusted spread, rolling mean / rolling standard deviation and
      z-score;
    - [on_tick]: the evaluation cycle, which reads the last z-score and the
      market data, and opens or closes the paired position.

    Numbers.  A pandas / numpy [float64] is modelled by [Float.float]: the
    IEEE special values (not-a-number, the two infinities) with their
    comparison and propagation rules, and exact rationals for the finite
    values.  Rounding, overflow and the sign of zero are not modelled
    there; where they matter (the division that gives the z-score) the
    column arithmetic is embedded again on binary64 numbers, in module
    [B64].  A [Decimal] is modelled like [Float.float] by [Dec.decimal],
    with the traps of Python's default decimal context (division by zero
    and invalid operations raise). *)

From Stdlib Require Import String List Bool Arith ZArith QArith Lia Lqa.
From Stdlib Require Import Sorted.
From Stdlib Require Floats.
Import ListNotations.

Local Open Scope Z_scope.

(* ================================================================== *)
(** ** float64 values *)

Module Float.

Inductive float : Type :=
| NaN
| Inf (negative : bool)
| Fin (q : Q).

Definition is_nan (x : float) : bool :=
  match x with NaN => true | _ => false end.

(** [x == 0.0] *)
Definition is_zero (x : float) : bool :=
  match x with Fin q => Qeq_bool q 0 | _ => false end.

Definition Qneg (q : Q) : bool := (Qnum q <? 0)%Z.

Definition Qltb (a b : Q) : bool :=
  (Qnum a * QDen b <? Qnum b * QDen a)%Z.

Definition neg (x : float) : float :=
  match x with
  | NaN => NaN
  | Inf s => Inf (negb s)
  | Fin q => Fin (- q)
  end.

Definition add (x y : float) : float :=
  match x, y with
  | NaN, _ | _, NaN => NaN
  | Inf s, Inf t => if Bool.eqb s t then Inf s else NaN
  | Inf s, Fin _ => Inf s
  | Fin _, Inf t => Inf t
  | Fin a, Fin b => Fin (a + b)
  end.

Definition sub (x y : float) : float := add x (neg y).

Definition mul (x y : float) : float :=
  match x, y with
  | NaN, _ | _, NaN => NaN
  | Inf s, Inf t => Inf (xorb s t)
  | Inf s, Fin q | Fin q, Inf s =>
      if Qeq_bool q 0 then NaN else Inf (xorb s (Qneg q))
  | Fin a, Fin b => Fin (a * b)
  end.

(** numpy division: no exception, [x / 0.0] is an infinity for [x <> 0]
    and not-a-number for [0.0 / 0.0]. *)
Definition div (x y : float) : float :=
  match x, y with
  | NaN, _ | _, NaN => NaN
  | Inf _, Inf _ => NaN
  | Inf s, Fin q => Inf (xorb s (Qneg q))
  | Fin _, Inf _ => Fin 0
  | Fin a, Fin b =>
      if Qeq_bool b 0
      then (if Qeq_bool a 0 then NaN else Inf (Qneg a))
      else Fin (a / b)
  end.

(** [x < y]; every comparison with not-a-number is false. *)
Definition ltb (x y : float) : bool :=
  match x, y with
  | NaN, _ | _, NaN => false
  | Inf s, Inf t => s && negb t
  | Inf s, Fin _ => s
  | Fin _, Inf t => negb t
  | Fin a, Fin b => Qltb a b
  end.

(** [x > y] *)
Definition gtb (x y : float) : bool := ltb y x.

(** Python [int] or finite [float] constant seen as a float64. *)
Definition of_Q (q : Q) : float := Fin q.

End Float.

Import Float.

(* ================================================================== *)
(** ** Frames *)

(** A row of [candles_df[['timestamp', 'close']]]. *)
Record candle : Type := mkCandle {
  c_timestamp : Z;
  c_close : float
}.

(** A row of the merged frame: columns [timestamp], [close_1], [close_2]. *)
Record merged_row : Type := mkMerged {
  m_timestamp : Z;
  m_close_1 : float;
  m_close_2 : float
}.

(** A row of the frame returned by [calculate_spread_and_zscore]. *)
Record row : Type := mkRow {
  timestamp : Z;
  close_1 : float;
  close_2 : float;
  spread : float;
  z_score : float
}.

(** [pd.merge(df1, df2, on="timestamp", suffixes=('_1', '_2'))]: inner join
    on equal timestamps, in the order of the left keys. *)
Definition merge (df1 df2 : list candle) : list merged_row :=
  flat_map
    (fun r1 =>
       map (fun r2 => mkMerged (c_timestamp r1) (c_close r1) (c_close r2))
           (filter (fun r2 => (c_timestamp r2 =? c_timestamp r1)%Z) df2))
    df1.

(** Element-wise operation on two columns of one frame. *)
Fixpoint zip_with {A B C : Type} (f : A -> B -> C)
         (xs : list A) (ys : list B) : list C :=
  match xs, ys with
  | x :: xs', y :: ys' => f x y :: zip_with f xs' ys'
  | _, _ => []
  end.

(* ================================================================== *)
(** ** Rolling windows ([Series.rolling(window=w)]) *)

(** The trailing window of row [i]: the (at most [w]) values that end at
    position [i], inclusive. *)
Definition window {A : Type} (w i : nat) (xs : list A) : list A :=
  skipn (S i - w) (firstn (S i) xs).

(** The valid observations of a window: pandas turns infinities into
    missing values before the window aggregation, and skips missing
    values. *)
Fixpoint observations (l : list float) : list Q :=
  match l with
  | [] => []
  | Fin q :: l' => q :: observations l'
  | _ :: l' => observations l'
  end.

(** The statistic of row [i], with the default [min_periods = w]: the
    result is missing unless the window holds [w] valid observations. *)
Definition stat_at (w : nat) (agg : list Q -> float) (xs : list float)
           (i : nat) : float :=
  let obs := observations (window w i xs) in
  if (length obs <? w)%nat then NaN else agg obs.

(** [rolling(window=w).agg()]: one statistic per row. *)
Definition rolling (w : nat) (agg : list Q -> float) (xs : list float)
  : list float :=
  map (stat_at w agg xs) (seq 0 (length xs)).

Definition Qsum (l : list Q) : Q := fold_right Qplus 0%Q l.

Definition Qlen (l : list Q) : Q := inject_Z (Z.of_nat (length l)).

Definition Qmean (l : list Q) : Q := (Qsum l / Qlen l)%Q.

(** Sum of the squared deviations from [m]. *)
Definition Qssq (m : Q) (l : list Q) : Q :=
  Qsum (map (fun x => (x - m) * (x - m))%Q l).

(** Sample variance (one delta degree of freedom). *)
Definition Qvar (l : list Q) : Q :=
  (Qssq (Qmean l) l / (Qlen l - 1))%Q.

(** [.mean()] of a window. *)
Definition roll_mean (obs : list Q) : float :=
  match obs with
  | [] => NaN
  | _ => Fin (Qmean obs)
  end.

(** [.var()] of a window, [ddof = 1]: missing when the window has no
    more observations than [ddof]. *)
Definition roll_var (obs : list Q) : float :=
  if (length obs <=? 1)%nat then NaN else Fin (Qvar obs).

(* ================================================================== *)
(** ** Decimal values and Python exceptions *)

Inductive exn : Type :=
| IndexError          (* [.iloc[-1]] on an empty column *)
| TypeError           (* arithmetic on [None] *)
| DivisionByZero      (* decimal.DivisionByZero *)
| InvalidOperation.   (* decimal.InvalidOperation *)

Inductive result (A : Type) : Type :=
| Done (a : A)
| Raised (e : exn).

Arguments Done {A} a.
Arguments Raised {A} e.

Module Dec.

Inductive decimal : Type :=
| DNaN
| DInf (negative : bool)
| DFin (q : Q).

(** [x / y] in the default context. *)
Definition div (x y : decimal) : result decimal :=
  match x, y with
  | DNaN, _ | _, DNaN => Done DNaN
  | DInf _, DInf _ => Raised InvalidOperation
  | DInf s, DFin q => Done (DInf (xorb s (Qneg q)))
  | DFin _, DInf _ => Done (DFin 0)
  | DFin a, DFin b =>
      if Qeq_bool b 0
      then (if Qeq_bool a 0 then Raised InvalidOperation
            else Raised DivisionByZero)
      else Done (DFin (a / b))
  end.

(** [x * y] in the default context. *)
Definition mul (x y : decimal) : result decimal :=
  match x, y with
  | DNaN, _ | _, DNaN => Done DNaN
  | DInf s, DInf t => Done (DInf (xorb s t))
  | DInf s, DFin q | DFin q, DInf s =>
      if Qeq_bool q 0 then Raised InvalidOperation
      else Done (DInf (xorb s (Qneg q)))
  | DFin a, DFin b => Done (DFin (a * b))
  end.

(** [Decimal(0.99)]: the exact value of the float64 literal. *)
Definition d0_99 : decimal :=
  DFin (4458563631096791 # 4503599627370496).

End Dec.

Import Dec.
Import Float.

(* ================================================================== *)
(** ** Configuration, orders, strategy state *)

(** The class attributes of [StatArb].  The thresholds are Python numbers
    ([1], [0], [3] in the source), kept as exact rationals. *)
Record config : Type := mkConfig {
  exchange : string;
  trading_pair_1 : string;
  trading_pair_2 : string;
  hedge_ratio : float;
  zscore_length : nat;
  spread_length : nat;
  entry_threshold : Q;
  exit_threshold : Q;
  sl_threshold : Q;
  order_amount_usd : decimal
}.

(** The values written in the source; [float(0.3)] is the exact value of
    the float64 literal, [spread_length = zscore_length + 50]. *)
Definition default_config : config :=
  {| exchange := "binance_perpetual_testnet";
     trading_pair_1 := "ETH-USDT";
     trading_pair_2 := "BTC-USDT";
     hedge_ratio := Fin (5404319552844595 # 18014398509481984);
     zscore_length := 200;
     spread_length := 200 + 50;
     entry_threshold := 1;
     exit_threshold := 0;
     sl_threshold := 3;
     order_amount_usd := DFin 200 |}.

Inductive trade_type : Type := BUY | SELL.
Inductive order_type : Type := MARKET | LIMIT | LIMIT_MAKER.
Inductive position_action : Type := OPEN | CLOSE | NIL.

(** The arguments of one [self.buy(...)] or [self.sell(...)] call. *)
Record order : Type := mkOrder {
  side : trade_type;
  connector_name : string;
  trading_pair : string;
  amount : decimal;
  o_type : order_type;
  price : decimal;
  action : position_action
}.

(** What [buy] / [sell] return and what the two id fields hold: [None] or
    an order id string. *)
Definition order_ref : Type := option string.

(** Python truthiness of an order reference ([if self.long_order_id:]). *)
Definition truthy (r : order_ref) : bool :=
  match r with
  | None => false
  | Some s => negb (String.eqb s "")
  end.

Record strategy_state : Type := mkState {
  position_open : bool;
  long_order_id : order_ref;
  short_order_id : order_ref
}.

(** The class-level initial values. *)
Definition initial_state : strategy_state :=
  {| position_open := false; long_order_id := None; short_order_id := None |}.

(** What a cycle reads from its collaborators. *)
Record candles_feed : Type := mkFeed {
  ready : bool;
  candles_df : list candle
}.

Record snapshot : Type := mkSnapshot {
  candles_1 : candles_feed;
  candles_2 : candles_feed;
  get_pair_rate : string -> option decimal;   (* RateOracle *)
  get_mid_price : string -> option decimal;   (* connectors[exchange] *)
  place_order : order -> order_ref            (* return value of buy/sell *)
}.

(* ================================================================== *)
(** ** The effects of a cycle: state, trace, exceptions *)

Inductive log_level : Type := WARNING | ERROR.

Inductive event : Type :=
| Submit (o : order)
| SetLongOrderId (r : order_ref)
| SetShortOrderId (r : order_ref)
| SetPositionOpen (b : bool)
| Log (level : log_level) (msg : string).

Record outcome (A : Type) : Type := mkOutcome {
  res : result A;
  final : strategy_state;
  trace : list event
}.

Arguments mkOutcome {A} res final trace.
Arguments res {A} o.
Arguments final {A} o.
Arguments trace {A} o.

Definition M (A : Type) : Type := strategy_state -> outcome A.

Definition ret {A : Type} (a : A) : M A :=
  fun s => mkOutcome (Done a) s [].

Definition bind {A B : Type} (m : M A) (k : A -> M B) : M B :=
  fun s =>
    let o := m s in
    match res o with
    | Done a =>
        let o' := k a (final o) in
        mkOutcome (res o') (final o') (trace o ++ trace o')
    | Raised e => mkOutcome (Raised e) (final o) (trace o)
    end.

Notation "x <- m ;; k" := (bind m (fun x => k))
  (at level 61, m at next level, right associativity).
Notation "m ;;; k" := (bind m (fun _ => k))
  (at level 61, right associativity).

Definition get : M strategy_state :=
  fun s => mkOutcome (Done s) s [].

Definition emit (e : event) : M unit :=
  fun s => mkOutcome (Done tt) s [e].

Definition lift {A : Type} (r : result A) : M A :=
  fun s => mkOutcome r s [].

Definition set_long_order_id (r : order_ref) : M unit :=
  fun s => mkOutcome (Done tt)
             (mkState (position_open s) r (short_order_id s))
             [SetLongOrderId r].

Definition set_short_order_id (r : order_ref) : M unit :=
  fun s => mkOutcome (Done tt)
             (mkState (position_open s) (long_order_id s) r)
             [SetShortOrderId r].

Definition set_position_open (b : bool) : M unit :=
  fun s => mkOutcome (Done tt)
             (mkState b (long_order_id s) (short_order_id s))
             [SetPositionOpen b].

(** [self.buy(...)] / [self.sell(...)]: the order goes to the execution
    interface, which hands back a reference. *)
Definition submit (snap : snapshot) (o : order) : M order_ref :=
  emit (Submit o) ;;; ret (place_order snap o).

Definition when (b : bool) (m : M unit) : M unit :=
  if b then m else ret tt.

(** [column.iloc[-1]] *)
Definition iloc_last {A : Type} (col : list A) : result A :=
  match rev col with
  | [] => Raised IndexError
  | x :: _ => Done x
  end.

(** [mid * Decimal(0.99)], where [mid] may be [None]. *)
Definition mid_times (mid : option decimal) (k : decimal) : result decimal :=
  match mid with
  | None => Raised TypeError
  | Some p => Dec.mul p k
  end.

(** A computable square root on the rationals, rounded down to six
    decimal places; used to run the engine on concrete frames. *)
Definition Qsqrt_floor (q : Q) : Q :=
  Z.sqrt (Qnum q * QDen q * 1000000000000) # (Qden q * 1000000).

(** [__init__]: the base-class constructor, then the two candle feeds are
    started; the strategy begins with the class-level field values. *)
Inductive init_result : Type :=
| Started (s : strategy_state)
| ConfigurationError.

Definition init (cfg : config) : init_result := Started initial_state.

Section Strategy.

(** The square root of a non-negative rational is the one numeric
    primitive left open. *)
Variable Qsqrt : Q -> Q.

(** pandas' [zsqrt]: the square root, with negative inputs sent to 0. *)
Definition zsqrt (x : float) : float :=
  match x with
  | NaN => NaN
  | Inf s => if s then Fin 0 else Inf false
  | Fin q => if Qltb q 0 then Fin 0 else Fin (Qsqrt q)
  end.

(** [.std()] of a window. *)
Definition roll_std (obs : list Q) : float := zsqrt (roll_var obs).

(** *** [calculate_spread_and_zscore] *)

(** [df["close_1"] - (df["close_2"] * self.hedge_ratio)] *)
Definition spread_col (cfg : config) (df : list merged_row) : list float :=
  map (fun r => sub (m_close_1 r) (mul (m_close_2 r) (hedge_ratio cfg))) df.

Definition rolling_mean_col (cfg : config) (df : list merged_row)
  : list float :=
  rolling (zscore_length cfg) roll_mean (spread_col cfg df).

Definition rolling_std_col (cfg : config) (df : list merged_row)
  : list float :=
  rolling (zscore_length cfg) roll_std (spread_col cfg df).

(** [(df["spread"] - rolling_mean) / rolling_std] *)
Definition z_score_col (cfg : config) (df : list merged_row) : list float :=
  zip_with div
    (zip_with sub (spread_col cfg df) (rolling_mean_col cfg df))
    (rolling_std_col cfg df).

(** The body of the function once the frames are merged.  [None] is the
    "not enough data" return.  The timestamp column stays in seconds:
    its conversion to a datetime does not touch the other columns. *)
Definition spread_zscore (cfg : config) (df : list merged_row)
  : option (list row) :=
  if (spread_length cfg <=? length df)%nat then
    Some (zip_with
            (fun r sz => mkRow (m_timestamp r) (m_close_1 r) (m_close_2 r)
                               (fst sz) (snd sz))
            df
            (zip_with pair (spread_col cfg df) (z_score_col cfg df)))
  else None.

Definition calculate_spread_and_zscore (cfg : config)
           (df1 df2 : list candle) : option (list row) :=
  spread_zscore cfg (merge df1 df2).

(** *** [on_tick] *)

Definition all_candles_ready (snap : snapshot) : bool :=
  ready (candles_2 snap) && ready (candles_1 snap).

Definition market (cfg : config) (t : trade_type) (pair : string)
           (amt px : decimal) (a : position_action) : order :=
  mkOrder t (exchange cfg) pair amt MARKET px a.

(** The [if] / [elif] statement that ends the cycle. *)
Definition on_tick_trade (cfg : config) (snap : snapshot) (zscore : float)
           (amount_1 amount_2 price_1 price_2 : decimal) : M unit :=
  self <- get ;;
  if gtb zscore (of_Q (entry_threshold cfg))
     && ltb zscore (of_Q (sl_threshold cfg))
     && negb (position_open self)
  then
    id1 <- submit snap
             (market cfg BUY (trading_pair_1 cfg) amount_1 price_1 OPEN) ;;
    set_long_order_id id1 ;;;
    id2 <- submit snap
             (market cfg SELL (trading_pair_2 cfg) amount_2 price_2 OPEN) ;;
    set_short_order_id id2 ;;;
    set_position_open true
  else if (ltb zscore (of_Q (exit_threshold cfg))
           || gtb zscore (of_Q (entry_threshold cfg)))
          && position_open self
  then
    self1 <- get ;;
    when (truthy (long_order_id self1))
         (_ <- submit snap
                 (market cfg BUY (trading_pair_1 cfg) amount_1 price_1 CLOSE) ;;
          ret tt) ;;;
    self2 <- get ;;
    when (truthy (short_order_id self2))
         (_ <- submit snap
                 (market cfg SELL (trading_pair_2 cfg) amount_2 price_2 CLOSE) ;;
          ret tt) ;;;
    set_position_open false
  else ret tt.

Definition on_tick (cfg : config) (snap : snapshot) : M unit :=
  if all_candles_ready snap then
    match calculate_spread_and_zscore cfg
            (candles_df (candles_1 snap)) (candles_df (candles_2 snap)) with
    | Some df =>
        zscore <- lift (iloc_last (map z_score df)) ;;
        let conversion_rate_1 := get_pair_rate snap (trading_pair_1 cfg) in
        let conversion_rate_2 := get_pair_rate snap (trading_pair_2 cfg) in
        match conversion_rate_1, conversion_rate_2 with
        | Some rate_1, Some rate_2 =>
            amount_1 <- lift (Dec.div (order_amount_usd cfg) rate_1) ;;
            amount_2 <- lift (Dec.div (order_amount_usd cfg) rate_2) ;;
            price_1 <- lift (mid_times
                               (get_mid_price snap (trading_pair_1 cfg))
                               d0_99) ;;
            price_2 <- lift (mid_times
                               (get_mid_price snap (trading_pair_2 cfg))
                               d0_99) ;;
            on_tick_trade cfg snap zscore amount_1 amount_2 price_1 price_2
        | _, _ =>
            emit (Log WARNING
                    "Conversion rate is None for one or both trading pairs.")
        end
    | None =>
        emit (Log ERROR
                "Not enough data to calculate the spread and z-score.")
    end
  else ret tt.

(** A run: one cycle per snapshot, each starting in the state the
    previous one left (an exception ends its cycle, not the run).  The
    result is the last state and the per-cycle traces. *)
Fixpoint run (cfg : config) (snaps : list snapshot) (s : strategy_state)
  : strategy_state * list (list event) :=
  match snaps with
  | [] => (s, [])
  | snap :: rest =>
      let o := on_tick cfg snap s in
      let '(s', traces) := run cfg rest (final o) in
      (s', trace o :: traces)
  end.

End Strategy.

(* ================================================================== *)
(** ** Reading a cycle: decisions and traces *)

Inductive decision : Type := OPEN_LONG1_SHORT2 | CLOSE_BOTH | HOLD.

Definition sets_flag (b : bool) (e : event) : bool :=
  match e with
  | SetPositionOpen b' => Bool.eqb b b'
  | _ => false
  end.

(** The decision a cycle took, read off its trace. *)
Definition decision_of (tr : list event) : decision :=
  if existsb (sets_flag true) tr then OPEN_LONG1_SHORT2
  else if existsb (sets_flag false) tr then CLOSE_BOTH
  else HOLD.

Definition is_submit (a : position_action) (e : event) : bool :=
  match e with
  | Submit o =>
      match action o, a with
      | OPEN, OPEN | CLOSE, CLOSE | NIL, NIL => true
      | _, _ => false
      end
  | _ => false
  end.

(** The trace of the opening branch. *)
Definition open_trace (cfg : config) (snap : snapshot)
           (amount_1 amount_2 price_1 price_2 : decimal) : list event :=
  let o1 := market cfg BUY (trading_pair_1 cfg) amount_1 price_1 OPEN in
  let o2 := market cfg SELL (trading_pair_2 cfg) amount_2 price_2 OPEN in
  [Submit o1; SetLongOrderId (place_order snap o1);
   Submit o2; SetShortOrderId (place_order snap o2);
   SetPositionOpen true].

Definition open_state (cfg : config) (snap : snapshot)
           (amount_1 amount_2 price_1 price_2 : decimal) : strategy_state :=
  mkState true
    (place_order snap
       (market cfg BUY (trading_pair_1 cfg) amount_1 price_1 OPEN))
    (place_order snap
       (market cfg SELL (trading_pair_2 cfg) amount_2 price_2 OPEN)).

(** The trace of the closing branch, from state [s]. *)
Definition close_trace (cfg : config) (s : strategy_state)
           (amount_1 amount_2 price_1 price_2 : decimal) : list event :=
  (if truthy (long_order_id s)
   then [Submit (market cfg BUY (trading_pair_1 cfg) amount_1 price_1 CLOSE)]
   else [])
  ++ (if truthy (short_order_id s)
      then [Submit (market cfg SELL (trading_pair_2 cfg) amount_2 price_2 CLOSE)]
      else [])
  ++ [SetPositionOpen false].

Definition close_state (s : strategy_state) : strategy_state :=
  mkState false (long_order_id s) (short_order_id s).

(** The state machine fed a list of z-scores, one per cycle, with fixed
    sizing: the decision and the position flag after each cycle. *)
Fixpoint feed (cfg : config) (snap : snapshot)
         (amount_1 amount_2 price_1 price_2 : decimal)
         (zs : list float) (s : strategy_state) : list (decision * bool) :=
  match zs with
  | [] => []
  | z :: zs' =>
      let o := on_tick_trade cfg snap z amount_1 amount_2 price_1 price_2 s in
      (decision_of (trace o), position_open (final o))
        :: feed cfg snap amount_1 amount_2 price_1 price_2 zs' (final o)
  end.

(** A snapshot for running examples: no candles, unit rates and prices,
    and an execution interface that answers every order with one id. *)
Definition demo_snapshot : snapshot :=
  {| candles_1 := mkFeed true [];
     candles_2 := mkFeed true [];
     get_pair_rate := fun _ => Some (DFin 1);
     get_mid_price := fun _ => Some (DFin 1);
     place_order := fun _ => Some "order-1"%string |}.

Definition is_log (e : event) : bool :=
  match e with Log _ _ => true | _ => false end.

(** A cycle that does nothing: the state is the one it started in and the
    trace holds log records only. *)
Definition quiet {A : Type} (s : strategy_state) (o : outcome A) : Prop :=
  final o = s /\ forallb is_log (trace o) = true.

Definition is_flag_write (e : event) : bool :=
  match e with SetPositionOpen _ => true | _ => false end.

Definition count_events (p : event -> bool) (tr : list event) : nat :=
  length (filter p tr).

(** Paired positions entered and not yet left along a trace: every
    opening decision enters one, every closing decision leaves one. *)
Definition net_entries (tr : list event) : Z :=
  Z.of_nat (count_events (sets_flag true) tr)
  - Z.of_nat (count_events (sets_flag false) tr).

Definition b2z (b : bool) : Z := if b then 1 else 0.

(** Threshold orderings other than [exit < entry < sl]. *)
Definition malformed (cfg : config) : Prop :=
  (entry_threshold cfg <= exit_threshold cfg
   \/ sl_threshold cfg <= entry_threshold cfg)%Q.

(** An execution interface that answers every order with a usable
    reference: not [None], and not the empty string either. *)
Definition accepting (snap : snapshot) : Prop :=
  forall o, truthy (place_order snap o) = true.

Section Reachability.

Variable Qsqrt : Q -> Q.
Variable cfg : config.

(** The states of the runs that start with the class-level values and go
    through cycles served by an accepting execution interface. *)
Inductive reachable : strategy_state -> Prop :=
| reach_init : reachable initial_state
| reach_tick (s : strategy_state) (snap : snapshot) :
    reachable s -> accepting snap ->
    reachable (final (on_tick Qsqrt cfg snap s)).

End Reachability.

(** A small configuration and frames, for running whole cycles: windows
    of three rows, frames of three rows. *)
Definition small_config : config :=
  {| exchange := "binance_perpetual_testnet";
     trading_pair_1 := "ETH-USDT";
     trading_pair_2 := "BTC-USDT";
     hedge_ratio := Fin (5404319552844595 # 18014398509481984);
     zscore_length := 3;
     spread_length := 3;
     entry_threshold := 1;
     exit_threshold := 0;
     sl_threshold := 3;
     order_amount_usd := DFin 200 |}.

Definition candles_of (closes : list Q) : list candle :=
  zip_with (fun t c => mkCandle (Z.of_nat t) (Fin c))
           (seq 0 (length closes)) closes.

(** Leg 1 closes at 100, 100, 101 and leg 2 stays at 50: the last z-score
    is about 1.15, inside the entry band. *)
Definition rising_snapshot : snapshot :=
  {| candles_1 := mkFeed true (candles_of [100; 100; 101]%Q);
     candles_2 := mkFeed true (candles_of [50; 50; 50]%Q);
     get_pair_rate := fun _ => Some (DFin 2);
     get_mid_price := fun _ => Some (DFin 100);
     place_order := fun _ => Some "order-1"%string |}.

(** Leg 1 closes at 101, 100, 99: the last z-score is -1, below the exit
    threshold. *)
Definition falling_snapshot : snapshot :=
  {| candles_1 := mkFeed true (candles_of [101; 100; 99]%Q);
     candles_2 := mkFeed true (candles_of [50; 50; 50]%Q);
     get_pair_rate := fun _ => Some (DFin 2);
     get_mid_price := fun _ => Some (DFin 100);
     place_order := fun _ => Some "order-2"%string |}.

(** Both legs flat: the rolling standard deviation is zero. *)
Definition still_frame : list merged_row :=
  [mkMerged 0 (Fin 100) (Fin 50); mkMerged 1 (Fin 100) (Fin 50);
   mkMerged 2 (Fin 100) (Fin 50)].

(** The source's configuration with 250 one-minute candles per leg, both
    conversion rates known, and no mid price from the connector. *)
Definition no_mid_snapshot : snapshot :=
  {| candles_1 := mkFeed true (candles_of (repeat 3000%Q 250));
     candles_2 := mkFeed true (candles_of (repeat 60000%Q 250));
     get_pair_rate := fun _ => Some (DFin 3000);
     get_mid_price := fun _ => None;
     place_order := fun _ => Some "order-3"%string |}.

(** Thresholds in the wrong order: [exit = 2 >= entry = 1]. *)
Definition inverted_config : config :=
  {| exchange := exchange default_config;
     trading_pair_1 := trading_pair_1 default_config;
     trading_pair_2 := trading_pair_2 default_config;
     hedge_ratio := hedge_ratio default_config;
     zscore_length := zscore_length default_config;
     spread_length := spread_length default_config;
     entry_threshold := 1;
     exit_threshold := 2;
     sl_threshold := 3;
     order_amount_usd := order_amount_usd default_config |}.

(* ================================================================== *)
(** ** The rest of the engine and of the cycle *)

Definition finiteb (x : float) : bool :=
  match x with Fin _ => true | _ => false end.

Definition is_error_log (e : event) : bool :=
  match e with Log ERROR _ => true | _ => false end.

Definition is_warning_log (e : event) : bool :=
  match e with Log WARNING _ => true | _ => false end.

Section CycleInputs.

Variable Qsqrt : Q -> Q.

(** Everything a cycle needs before its trade statement: ready feeds, a
    frame with a last z-score [z], both conversion rates, both amounts
    and both prices. *)
Definition cycle_inputs (cfg : config) (snap : snapshot) (z : float)
           (a1 a2 p1 p2 : decimal) : Prop :=
  all_candles_ready snap = true
  /\ exists df r1 r2,
      calculate_spread_and_zscore Qsqrt cfg
        (candles_df (candles_1 snap)) (candles_df (candles_2 snap)) = Some df
      /\ iloc_last (map z_score df) = Done z
      /\ get_pair_rate snap (trading_pair_1 cfg) = Some r1
      /\ get_pair_rate snap (trading_pair_2 cfg) = Some r2
      /\ Dec.div (order_amount_usd cfg) r1 = Done a1
      /\ Dec.div (order_amount_usd cfg) r2 = Done a2
      /\ mid_times (get_mid_price snap (trading_pair_1 cfg)) d0_99 = Done p1
      /\ mid_times (get_mid_price snap (trading_pair_2 cfg)) d0_99 = Done p2.

End CycleInputs.

(** *** [format_status] *)

(** The newline character (code 10), and the one-character string of it. *)
Definition newline : Ascii.ascii :=
  Ascii.Ascii false true false true false false false false.

Definition nl : string := String newline EmptyString.

(** [s.split(sep)] for a one-character separator. *)
Fixpoint split (sep : Ascii.ascii) (s : string) : list string :=
  match s with
  | EmptyString => [EmptyString]
  | String c s' =>
      if Ascii.eqb c sep then EmptyString :: split sep s'
      else match split sep s' with
           | piece :: rest => String c piece :: rest
           | [] => [String c EmptyString]
           end
  end.

(** [df.tail(n)]: the last [n] rows. *)
Definition tail {A : Type} (n : nat) (l : list A) : list A :=
  skipn (length l - n) l.

Definition market_banner : string :=
  (nl ++ "######################################### Market Data ##########################################" ++ nl)%string.

Definition status_rule : string :=
  (nl ++ "------------------------------------------------------------------------------------------------" ++ nl)%string.

Definition status_header (cfg : config) : string :=
  ("TIMESTAMP           | " ++ trading_pair_1 cfg ++ " | "
   ++ trading_pair_2 cfg ++ " | SPREAD  | Z-SCORE")%string.

Section Status.

Variable Qsqrt : Q -> Q.

(** The two renderings the f-string uses are left open: the text of a
    converted timestamp, and a float under the format [.4f]. *)
Variable show_timestamp : Z -> string.
Variable fixed4 : float -> string.

Definition status_row (r : row) : string :=
  (show_timestamp (timestamp r) ++ " |  " ++ fixed4 (close_1 r) ++ "  | "
   ++ fixed4 (close_2 r) ++ " | " ++ fixed4 (spread r) ++ " | "
   ++ fixed4 (z_score r))%string.

(** The list [lines] at the end of [format_status], for connectors that
    are ready to trade.  [balance_text] is
    [balance_df.to_string(index=False)]. *)
Definition status_lines (cfg : config) (snap : snapshot)
           (balance_text : string) : M (list string) :=
  let lines :=
    [""%string; "  Balances:"%string]
    ++ map (fun line => ("    " ++ line)%string) (split newline balance_text)
  in
  if all_candles_ready snap then
    match calculate_spread_and_zscore Qsqrt cfg
            (candles_df (candles_1 snap)) (candles_df (candles_2 snap)) with
    | Some df =>
        ret (lines ++ [market_banner]
               ++ (status_header cfg :: map status_row (tail 10 df))
               ++ [status_rule])
    | None =>
        emit (Log ERROR
                "Not enough data to calculate the spread and z-score.") ;;;
        ret (lines ++ [market_banner] ++ [status_rule])
    end
  else ret (lines ++ [""%string; "  No data collected."%string]).

Definition format_status (cfg : config) (snap : snapshot)
           (ready_to_trade : bool) (balance_text : string) : M string :=
  if negb ready_to_trade then ret "Market connectors are not ready."%string
  else
    lines <- status_lines cfg snap balance_text ;;
    ret (String.concat nl lines).

End Status.

(** *** More configurations and snapshots for concrete runs *)

(** An empty entry band: [entry = sl = 3]. *)
Definition empty_band_config : config :=
  {| exchange := exchange small_config;
     trading_pair_1 := trading_pair_1 small_config;
     trading_pair_2 := trading_pair_2 small_config;
     hedge_ratio := hedge_ratio small_config;
     zscore_length := zscore_length small_config;
     spread_length := spread_length small_config;
     entry_threshold := 3;
     exit_threshold := 0;
     sl_threshold := 3;
     order_amount_usd := order_amount_usd small_config |}.

(** The rising frames with an execution interface that hands back no
    reference. *)
Definition deaf_snapshot : snapshot :=
  {| candles_1 := candles_1 rising_snapshot;
     candles_2 := candles_2 rising_snapshot;
     get_pair_rate := get_pair_rate rising_snapshot;
     get_mid_price := get_mid_price rising_snapshot;
     place_order := fun _ => None |}.

(** The rising frames with a conversion rate of zero for leg 1. *)
Definition zero_rate_snapshot : snapshot :=
  {| candles_1 := candles_1 rising_snapshot;
     candles_2 := candles_2 rising_snapshot;
     get_pair_rate :=
       fun pair => if String.eqb pair "ETH-USDT" then Some (DFin 0)
                   else Some (DFin 2);
     get_mid_price := get_mid_price rising_snapshot;
     place_order := place_order rising_snapshot |}.

(** Leg 1 has a missing close in its middle candle. *)
Definition gap_frame : list merged_row :=
  [mkMerged 0 (Fin 100) (Fin 50); mkMerged 1 NaN (Fin 50);
   mkMerged 2 (Fin 101) (Fin 50)].

(* ================================================================== *)
(** ** The z-score in binary64 *)

(** The column arithmetic of [calculate_spread_and_zscore] on IEEE
    binary64 numbers, as numpy computes it: rounding, underflow and the
    sign of zero included.  The two rolling statistics, which pandas
    computes, are parameters of the engine. *)
Module B64.

Import PrimFloat.

(** The IEEE class of a number. *)
Definition nan64 (x : float) : bool :=
  match FloatOps.Prim2SF x with SpecFloat.S754_nan => true | _ => false end.

Definition zero64 (x : float) : bool :=
  match FloatOps.Prim2SF x with
  | SpecFloat.S754_zero _ => true
  | _ => false
  end.

Definition infinite64 (x : float) : bool :=
  match FloatOps.Prim2SF x with
  | SpecFloat.S754_infinity _ => true
  | _ => false
  end.

(** A real number: neither missing nor infinite. *)
Definition finite64 (x : float) : bool := negb (nan64 x || infinite64 x).

Record merged_row64 : Type := mkMerged64 {
  m_timestamp64 : Z;
  m_close_1_64 : float;
  m_close_2_64 : float
}.

Record row64 : Type := mkRow64 {
  timestamp64 : Z;
  close_1_64 : float;
  close_2_64 : float;
  spread64 : float;
  z_score64 : float
}.

Section Engine64.

(** [series.rolling(window=w).mean()] and [.std()]. *)
Variables rolling_mean rolling_std : nat -> list float -> list float.

(** [df["close_1"] - (df["close_2"] * self.hedge_ratio)] *)
Definition spread_col64 (hedge_ratio : float) (df : list merged_row64)
  : list float :=
  map (fun r => sub (m_close_1_64 r) (mul (m_close_2_64 r) hedge_ratio)) df.

(** [(df["spread"] - rolling_mean) / rolling_std] *)
Definition z_score_col64 (hedge_ratio : float) (zscore_length : nat)
           (df : list merged_row64) : list float :=
  zip_with div
    (zip_with sub (spread_col64 hedge_ratio df)
       (rolling_mean zscore_length (spread_col64 hedge_ratio df)))
    (rolling_std zscore_length (spread_col64 hedge_ratio df)).

(** The body of the function once the frames are merged. *)
Definition spread_zscore64 (hedge_ratio : float)
           (zscore_length spread_length : nat) (df : list merged_row64)
  : option (list row64) :=
  if (spread_length <=? length df)%nat then
    Some (zip_with
            (fun r sz => mkRow64 (m_timestamp64 r) (m_close_1_64 r)
                                 (m_close_2_64 r) (fst sz) (snd sz))
            df
            (zip_with pair (spread_col64 hedge_ratio df)
               (z_score_col64 hedge_ratio zscore_length df)))
  else None.

End Engine64.

Definition sum64 (l : list float) : float := fold_left add l zero.

Definition count64 (l : list float) : float :=
  fold_left (fun n _ => add n one) l zero.

(** Modelled from the spec: the rolling mean is the mean of the trailing
    window; pandas' own routine is not part of the source.  Computed in
    binary64. *)
Definition mean64 (l : list float) : float := div (sum64 l) (count64 l).

(** Modelled from the spec: the rolling standard deviation is the sample
    standard deviation of the trailing window; pandas' own routine is not
    part of the source.  Computed in binary64. *)
Definition std64 (l : list float) : float :=
  let m := mean64 l in
  sqrt (div (sum64 (map (fun x => mul (sub x m) (sub x m)) l))
            (sub (count64 l) one)).

(** Modelled from the spec: a statistic over the trailing window of each
    row, missing while the window holds fewer than [w] real numbers. *)
Definition rolling64 (agg : list float -> float) (w : nat)
           (xs : list float) : list float :=
  map (fun i =>
         let win := window w i xs in
         if (length (filter finite64 win) <? w)%nat then nan else agg win)
      (seq 0 (length xs)).

(** [float(0.3)], exactly. *)
Definition hedge_0_3 : float := 0x1.3333333333333p-2%float.

(** Leg 1 closes at 0, 1e-200 and 2e-200 (the binary64 numbers nearest to
    them), leg 2 at 0: the squared deviations underflow. *)
Definition underflow_frame : list merged_row64 :=
  [mkMerged64 0 zero zero;
   mkMerged64 60 0x1.87e92154ef7acp-665%float zero;
   mkMerged64 120 0x1.87e92154ef7acp-664%float zero].

(** Leg 1 stays at 100 and leg 2 at 50. *)
Definition level_frame : list merged_row64 :=
  [mkMerged64 0 100%float 50%float;
   mkMerged64 60 100%float 50%float;
   mkMerged64 120 100%float 50%float].

End B64.

(* ================================================================== *)
(** ** Runs of whole cycles *)

Section BandCycles.

Variable Qsqrt : Q -> Q.

(** A cycle that has all its inputs and a real z-score strictly inside
    the entry band. *)
Definition in_band_cycle (cfg : config) (snap : snapshot) : Prop :=
  exists q a1 a2 p1 p2,
    cycle_inputs Qsqrt cfg snap (Fin q) a1 a2 p1 p2
    /\ (entry_threshold cfg < q /\ q < sl_threshold cfg)%Q.

End BandCycles.

(** The decisions of a flapping position over [n] cycles, from a state
    whose flag is [open]. *)
Fixpoint flap (open : bool) (n : nat) : list decision :=
  match n with
  | O => []
  | S n' => (if open then CLOSE_BOTH else OPEN_LONG1_SHORT2)
            :: flap (negb open) n'
  end.

(** An open position with two stored references. *)
Definition held_state : strategy_state :=
  mkState true (Some "order-1"%string) (Some "order-1"%string).

(** The rising frames, and the falling frames, with no conversion rate. *)
Definition no_rate_snapshot : snapshot :=
  {| candles_1 := candles_1 rising_snapshot;
     candles_2 := candles_2 rising_snapshot;
     get_pair_rate := fun _ => None;
     get_mid_price := get_mid_price rising_snapshot;
     place_order := place_order rising_snapshot |}.

Definition no_rate_falling_snapshot : snapshot :=
  {| candles_1 := candles_1 falling_snapshot;
     candles_2 := candles_2 falling_snapshot;
     get_pair_rate := fun _ => None;
     get_mid_price := get_mid_price falling_snapshot;
     place_order := place_order falling_snapshot |}.

(** The rising frames, and the falling frames, with an execution
    interface that answers every order with the empty string. *)
Definition empty_id_snapshot : snapshot :=
  {| candles_1 := candles_1 rising_snapshot;
     candles_2 := candles_2 rising_snapshot;
     get_pair_rate := get_pair_rate rising_snapshot;
     get_mid_price := get_mid_price rising_snapshot;
     place_order := fun _ => Some ""%string |}.

Definition empty_id_falling_snapshot : snapshot :=
  {| candles_1 := candles_1 falling_snapshot;
     candles_2 := candles_2 falling_snapshot;
     get_pair_rate := get_pair_rate falling_snapshot;
     get_mid_price := get_mid_price falling_snapshot;
     place_order := fun _ => Some ""%string |}.

(** Three candles ten minutes after those of the rising frames. *)
Definition late_candles : list candle :=
  [mkCandle 10 (Fin 50); mkCandle 11 (Fin 50); mkCandle 12 (Fin 50)].

(** The small configuration with crossed thresholds:
    [exit = 2 > entry = 1]. *)
Definition crossed_small_config : config :=
  {| exchange := exchange small_config;
     trading_pair_1 := trading_pair_1 small_config;
     trading_pair_2 := trading_pair_2 small_config;
     hedge_ratio := hedge_ratio small_config;
     zscore_length := zscore_length small_config;
     spread_length := spread_length small_config;
     entry_threshold := 1;
     exit_threshold := 2;
     sl_threshold := 3;
     order_amount_usd := order_amount_usd small_config |}.

(* ================================================================== *)
(** * Properties *)

(** ** Comparisons *)

Lemma Qltb_lt (a b : Q) : Qltb a b = true <-> (a < b)%Q.
Proof. unfold Qltb, Qlt. apply Z.ltb_lt. Qed.

Lemma Qltb_nlt (a b : Q) : Qltb a b = false <-> ~ (a < b)%Q.
Proof.
  rewrite <- Qltb_lt. destruct (Qltb a b); split; congruence.
Qed.

Lemma gtb_fin (q t : Q) : gtb (Fin q) (of_Q t) = true <-> (t < q)%Q.
Proof. apply Qltb_lt. Qed.

Lemma ltb_fin (q t : Q) : ltb (Fin q) (of_Q t) = true <-> (q < t)%Q.
Proof. apply Qltb_lt. Qed.

(** ** The three branches of the trade statement *)

Section Branches.

Variables (cfg : config) (snap : snapshot) (z : float).
Variables (a1 a2 p1 p2 : decimal) (s : strategy_state).

Let enter : bool :=
  gtb z (of_Q (entry_threshold cfg)) && ltb z (of_Q (sl_threshold cfg)).
Let leave : bool :=
  ltb z (of_Q (exit_threshold cfg)) || gtb z (of_Q (entry_threshold cfg)).

Lemma trade_open :
  enter = true -> position_open s = false ->
  on_tick_trade cfg snap z a1 a2 p1 p2 s
  = mkOutcome (Done tt) (open_state cfg snap a1 a2 p1 p2)
              (open_trace cfg snap a1 a2 p1 p2).
Proof.
  unfold on_tick_trade, enter, bind, get. cbn.
  intros -> ->. reflexivity.
Qed.

Lemma trade_close :
  leave = true -> position_open s = true ->
  on_tick_trade cfg snap z a1 a2 p1 p2 s
  = mkOutcome (Done tt) (close_state s) (close_trace cfg s a1 a2 p1 p2).
Proof.
  unfold on_tick_trade, leave, bind, get, close_trace, close_state. cbn.
  intros -> ->. rewrite andb_false_r. cbn.
  destruct (truthy (long_order_id s)); cbn;
    destruct (truthy (short_order_id s)); reflexivity.
Qed.

Lemma trade_hold_flat :
  enter = false -> position_open s = false ->
  on_tick_trade cfg snap z a1 a2 p1 p2 s = mkOutcome (Done tt) s [].
Proof.
  unfold on_tick_trade, enter, bind, get. cbn.
  intros -> ->. rewrite andb_false_r. reflexivity.
Qed.

Lemma trade_hold_open :
  leave = false -> position_open s = true ->
  on_tick_trade cfg snap z a1 a2 p1 p2 s = mkOutcome (Done tt) s [].
Proof.
  unfold on_tick_trade, leave, bind, get. cbn.
  intros -> ->. rewrite andb_false_r. reflexivity.
Qed.

End Branches.

(** ** Opening and closing conditions *)

(** The trade statement on a real z-score [q], from FLAT: the opening
    branch runs if and only if [entry_threshold < q < sl_threshold]; both
    comparisons are strict.  When it does not run, nothing happens. *)
Lemma trade_opens_iff_in_band
        (cfg : config) (snap : snapshot) (q : Q)
        (a1 a2 p1 p2 : decimal) (s : strategy_state) :
  position_open s = false ->
  let o := on_tick_trade cfg snap (Fin q) a1 a2 p1 p2 s in
  let opened := trace o = open_trace cfg snap a1 a2 p1 p2
                /\ final o = open_state cfg snap a1 a2 p1 p2 in
  (opened <-> (entry_threshold cfg < q /\ q < sl_threshold cfg)%Q)
  /\ (~ opened -> trace o = [] /\ final o = s)
  /\ (q == entry_threshold cfg -> ~ opened)%Q
  /\ (q == sl_threshold cfg -> ~ opened)%Q.
Proof.
  intros Hflat o opened.
  assert (Hiff : opened
                 <-> (entry_threshold cfg < q /\ q < sl_threshold cfg)%Q).
  { subst opened o.
    destruct (gtb (Fin q) (of_Q (entry_threshold cfg))
              && ltb (Fin q) (of_Q (sl_threshold cfg))) eqn:Hband.
    - rewrite trade_open by assumption. cbn.
      apply andb_true_iff in Hband. rewrite gtb_fin, ltb_fin in Hband.
      tauto.
    - rewrite trade_hold_flat by assumption. cbn.
      split; [intros [Habs _]; discriminate Habs|].
      intros [H1 H2]. apply gtb_fin in H1. apply ltb_fin in H2.
      rewrite H1, H2 in Hband. discriminate Hband. }
  split; [exact Hiff|]. split; [|split].
  - intros Hno. subst o.
    destruct (gtb (Fin q) (of_Q (entry_threshold cfg))
              && ltb (Fin q) (of_Q (sl_threshold cfg))) eqn:Hband.
    + exfalso. apply Hno. subst opened. cbv zeta.
      rewrite trade_open by assumption. split; reflexivity.
    + rewrite trade_hold_flat by assumption. split; reflexivity.
  - intros Heq Hop. apply Hiff in Hop. destruct Hop as [H1 _].
    rewrite Heq in H1. exact (Qlt_irrefl _ H1).
  - intros Heq Hop. apply Hiff in Hop. destruct Hop as [_ H2].
    rewrite Heq in H2. exact (Qlt_irrefl _ H2).
Qed.

(** The trade statement on a real z-score [q], from OPEN: the closing
    branch runs if and only if [q < exit_threshold] or
    [q > entry_threshold]; otherwise nothing happens. *)
Lemma trade_closes_iff_outside
        (cfg : config) (snap : snapshot) (q : Q)
        (a1 a2 p1 p2 : decimal) (s : strategy_state) :
  position_open s = true ->
  let o := on_tick_trade cfg snap (Fin q) a1 a2 p1 p2 s in
  let closed := trace o = close_trace cfg s a1 a2 p1 p2
                /\ final o = close_state s
                /\ decision_of (trace o) = CLOSE_BOTH in
  (closed <-> (q < exit_threshold cfg \/ entry_threshold cfg < q)%Q)
  /\ (~ closed ->
      trace o = [] /\ final o = s /\ decision_of (trace o) = HOLD).
Proof.
  intros Hopen o closed. subst closed o.
  destruct (ltb (Fin q) (of_Q (exit_threshold cfg))
            || gtb (Fin q) (of_Q (entry_threshold cfg))) eqn:Hout.
  - rewrite trade_close by assumption. cbn.
    assert (Hdec : decision_of (close_trace cfg s a1 a2 p1 p2) = CLOSE_BOTH).
    { unfold close_trace.
      destruct (truthy (long_order_id s)), (truthy (short_order_id s));
        reflexivity. }
    apply orb_true_iff in Hout. rewrite ltb_fin, gtb_fin in Hout.
    split; [tauto|]. intros Hno. exfalso. apply Hno. auto.
  - rewrite trade_hold_open by assumption. cbn.
    split; [|intros _; auto].
    split.
    + intros [Habs _]. unfold close_trace in Habs.
      destruct (truthy (long_order_id s)), (truthy (short_order_id s));
        discriminate Habs.
    + intros Hq. rewrite <- ltb_fin, <- gtb_fin in Hq.
      apply orb_true_iff in Hq. congruence.
Qed.

(** C3 (as the code behaves).  With thresholds entry = 1, exit = 0, sl = 3
    and starting FLAT: z-score 1.5 opens (OPEN_LONG1_SHORT2, state OPEN);
    z-score 2.0 on the next cycle, being above the entry threshold, closes
    (CLOSE_BOTH, state FLAT); z-score -0.5 on the cycle after that finds the
    state FLAT and does nothing (HOLD, state FLAT). *)
Theorem C3_scenario
        (ex tp1 tp2 : string) (h : float) (zl sl : nat) (usd : decimal)
        (snap : snapshot) (a1 a2 p1 p2 : decimal) :
  feed (mkConfig ex tp1 tp2 h zl sl 1 0 3 usd) snap a1 a2 p1 p2
       [Fin (3 # 2); Fin 2; Fin (- (1 # 2))] initial_state
  = [(OPEN_LONG1_SHORT2, true); (CLOSE_BOTH, false); (HOLD, false)].
Proof.
  cbn [feed].
  rewrite trade_open by reflexivity. cbn [trace final position_open open_state].
  rewrite trade_close by reflexivity.
  cbn [trace final position_open close_state].
  rewrite trade_hold_flat by reflexivity.
  unfold close_trace. cbn [long_order_id short_order_id].
  destruct (truthy _), (truthy _); reflexivity.
Qed.

(** C3 as stated fails: the second cycle does not hold the position. *)
Lemma C3_counterexample :
  feed default_config demo_snapshot (DFin 1) (DFin 1) (DFin 1) (DFin 1)
       [Fin (3 # 2); Fin 2; Fin (- (1 # 2))] initial_state
  <> [(OPEN_LONG1_SHORT2, true); (HOLD, true); (CLOSE_BOTH, false)].
Proof. vm_compute. discriminate. Qed.

(* ================================================================== *)
(** ** Columns and windows *)

Lemma length_zip_with {A B C : Type} (f : A -> B -> C) xs ys :
  length (zip_with f xs ys) = Nat.min (length xs) (length ys).
Proof.
  revert ys. induction xs as [|x xs IH]; intros [|y ys]; cbn; auto.
Qed.

Lemma nth_error_zip_with {A B C : Type} (f : A -> B -> C) xs ys i :
  nth_error (zip_with f xs ys) i
  = match nth_error xs i, nth_error ys i with
    | Some x, Some y => Some (f x y)
    | _, _ => None
    end.
Proof.
  revert ys i. induction xs as [|x xs IH]; intros [|y ys] [|i]; cbn; auto;
    destruct (nth_error xs i); reflexivity.
Qed.

Lemma length_rolling w agg xs : length (rolling w agg xs) = length xs.
Proof. unfold rolling. now rewrite length_map, length_seq. Qed.

Lemma nth_error_rolling w agg xs i :
  (i < length xs)%nat ->
  nth_error (rolling w agg xs) i = Some (stat_at w agg xs i).
Proof.
  intros Hi. unfold rolling.
  rewrite nth_error_map, nth_error_seq.
  apply Nat.ltb_lt in Hi. now rewrite Hi.
Qed.

Lemma length_observations l : (length (observations l) <= length l)%nat.
Proof.
  induction l as [|[| |q] l IH]; cbn; lia.
Qed.

Lemma length_window {A : Type} w i (xs : list A) :
  (i < length xs)%nat ->
  length (window w i xs) = Nat.min w (S i).
Proof.
  intros Hi. unfold window. rewrite length_skipn, length_firstn. lia.
Qed.

(** A window reads nothing past row [i]. *)
Lemma window_prefix {A : Type} w i (xs ys : list A) :
  firstn (S i) xs = firstn (S i) ys -> window w i xs = window w i ys.
Proof. unfold window. now intros ->. Qed.

Lemma stat_at_prefix w agg xs ys i :
  firstn (S i) xs = firstn (S i) ys -> stat_at w agg xs i = stat_at w agg ys i.
Proof. unfold stat_at. intros H. now rewrite (window_prefix w i xs ys H). Qed.


(* ================================================================== *)
(** ** The spread / z-score engine *)

Lemma sub_NaN_r (x : float) : sub x NaN = NaN.
Proof. now destruct x. Qed.

Section Engine.

Variable Qsqrt : Q -> Q.
Variable cfg : config.

Abbreviation w := (zscore_length cfg).
Abbreviation mean_at df := (stat_at w roll_mean (spread_col cfg df)).
Abbreviation std_at df := (stat_at w (roll_std Qsqrt) (spread_col cfg df)).

Lemma length_spread_col df : length (spread_col cfg df) = length df.
Proof. apply length_map. Qed.

Lemma nth_error_spread_col df i a :
  nth_error df i = Some a ->
  nth_error (spread_col cfg df) i
  = Some (sub (m_close_1 a) (mul (m_close_2 a) (hedge_ratio cfg))).
Proof. intros H. unfold spread_col. now rewrite nth_error_map, H. Qed.

Lemma nth_error_mean_col df i :
  (i < length df)%nat ->
  nth_error (rolling_mean_col cfg df) i = Some (mean_at df i).
Proof.
  intros H. apply nth_error_rolling. now rewrite length_spread_col.
Qed.

Lemma nth_error_std_col df i :
  (i < length df)%nat ->
  nth_error (rolling_std_col Qsqrt cfg df) i = Some (std_at df i).
Proof.
  intros H. apply nth_error_rolling. now rewrite length_spread_col.
Qed.

Lemma nth_error_z_score_col df i a :
  nth_error df i = Some a ->
  nth_error (z_score_col Qsqrt cfg df) i
  = Some (div (sub (sub (m_close_1 a) (mul (m_close_2 a) (hedge_ratio cfg)))
                   (mean_at df i))
              (std_at df i)).
Proof.
  intros H.
  assert (Hi : (i < length df)%nat) by (apply nth_error_Some; congruence).
  unfold z_score_col.
  rewrite !nth_error_zip_with, (nth_error_spread_col df i a H).
  now rewrite nth_error_mean_col, nth_error_std_col.
Qed.

(** Row [i] of the returned frame. *)
Lemma spread_zscore_row df rows i a :
  spread_zscore Qsqrt cfg df = Some rows ->
  nth_error df i = Some a ->
  nth_error rows i
  = Some (mkRow (m_timestamp a) (m_close_1 a) (m_close_2 a)
            (sub (m_close_1 a) (mul (m_close_2 a) (hedge_ratio cfg)))
            (div (sub (sub (m_close_1 a) (mul (m_close_2 a) (hedge_ratio cfg)))
                      (mean_at df i))
                 (std_at df i))).
Proof.
  unfold spread_zscore. destruct (spread_length cfg <=? length df)%nat;
    [|discriminate].
  intros [= <-] H.
  rewrite !nth_error_zip_with, H, (nth_error_spread_col df i a H).
  now rewrite (nth_error_z_score_col df i a H).
Qed.

Lemma spread_zscore_ready df :
  (spread_length cfg <= length df)%nat ->
  exists rows, spread_zscore Qsqrt cfg df = Some rows
               /\ length rows = length df.
Proof.
  intros H. unfold spread_zscore.
  apply Nat.leb_le in H. rewrite H. eexists. split; [reflexivity|].
  unfold z_score_col.
  rewrite !length_zip_with, length_spread_col.
  unfold rolling_mean_col, rolling_std_col.
  rewrite !length_rolling, length_spread_col. lia.
Qed.

(** Rows up to [i] determine the columns at [i]. *)
Lemma spread_col_prefix df df' n :
  firstn n df' = firstn n df ->
  firstn n (spread_col cfg df') = firstn n (spread_col cfg df).
Proof. unfold spread_col. rewrite !firstn_map. now intros ->. Qed.

Lemma nth_error_prefix {A : Type} (l l' : list A) i :
  firstn (S i) l' = firstn (S i) l -> nth_error l' i = nth_error l i.
Proof.
  intros H.
  assert (Hl : nth_error (firstn (S i) l') i = nth_error (firstn (S i) l) i)
    by now rewrite H.
  rewrite !nth_error_firstn in Hl.
  replace (i <? S i)%nat with true in Hl; [exact Hl|].
  symmetry. apply Nat.ltb_lt. lia.
Qed.

(** C5.  The computation returns nothing ("not ready") if and only if the
    merged frame has fewer than [spread_length] rows; with one row less
    than [spread_length] it returns nothing, with exactly [spread_length]
    rows it returns a frame, one row per merged row.  The same holds of
    [calculate_spread_and_zscore] on the two candle frames. *)
Theorem C5_not_ready_iff_short (df : list merged_row) :
  (spread_zscore Qsqrt cfg df = None <-> (length df < spread_length cfg)%nat)
  /\ (S (length df) = spread_length cfg -> spread_zscore Qsqrt cfg df = None)
  /\ (length df = spread_length cfg ->
      exists rows, spread_zscore Qsqrt cfg df = Some rows
                   /\ length rows = length df)
  /\ (forall df1 df2,
        calculate_spread_and_zscore Qsqrt cfg df1 df2 = None
        <-> (length (merge df1 df2) < spread_length cfg)%nat).
Proof.
  assert (Hiff : forall d, spread_zscore Qsqrt cfg d = None
                           <-> (length d < spread_length cfg)%nat).
  { intros d. unfold spread_zscore.
    destruct (spread_length cfg <=? length d)%nat eqn:Hle.
    - apply Nat.leb_le in Hle. split; [discriminate|lia].
    - apply Nat.leb_gt in Hle. split; auto. }
  split; [apply Hiff|]. split; [|split].
  - intros H. apply Hiff. lia.
  - intros H. apply spread_zscore_ready. lia.
  - intros df1 df2. apply Hiff.
Qed.

End Engine.

(* ================================================================== *)
(** ** The evaluation cycle *)

Lemma outcome_eta {A : Type} (o : outcome A) :
  mkOutcome (res o) (final o) (trace o) = o.
Proof. now destruct o. Qed.

(** The trade statement always completes, in one of three ways. *)
Lemma trade_cases (cfg : config) (snap : snapshot) (z : float)
      (a1 a2 p1 p2 : decimal) (s : strategy_state) :
  let o := on_tick_trade cfg snap z a1 a2 p1 p2 s in
  (position_open s = false
   /\ o = mkOutcome (Done tt) (open_state cfg snap a1 a2 p1 p2)
                    (open_trace cfg snap a1 a2 p1 p2))
  \/ (position_open s = true
      /\ o = mkOutcome (Done tt) (close_state s)
                       (close_trace cfg s a1 a2 p1 p2))
  \/ o = mkOutcome (Done tt) s [].
Proof.
  cbv zeta. destruct (position_open s) eqn:Hpos.
  - destruct (ltb z (of_Q (exit_threshold cfg))
              || gtb z (of_Q (entry_threshold cfg))) eqn:Hleave.
    + right; left. split; [reflexivity|]. now apply trade_close.
    + right; right. now apply trade_hold_open.
  - destruct (gtb z (of_Q (entry_threshold cfg))
              && ltb z (of_Q (sl_threshold cfg))) eqn:Henter.
    + left. split; [reflexivity|]. now apply trade_open.
    + right; right. now apply trade_hold_flat.
Qed.

Section Cycle.

Variable Qsqrt : Q -> Q.
Variable cfg : config.

(** A cycle either does nothing (possibly raising), or reaches the trade
    statement with a z-score, two amounts and two prices. *)
Lemma on_tick_cases (snap : snapshot) (s : strategy_state) :
  quiet s (on_tick Qsqrt cfg snap s)
  \/ exists z a1 a2 p1 p2,
      on_tick Qsqrt cfg snap s = on_tick_trade cfg snap z a1 a2 p1 p2 s.
Proof.
  unfold on_tick, quiet.
  destruct (all_candles_ready snap); [|left; split; reflexivity].
  destruct (calculate_spread_and_zscore Qsqrt cfg _ _) as [df|];
    [|left; split; reflexivity].
  unfold bind at 1. unfold lift at 1. cbn [res final trace].
  destruct (iloc_last (map z_score df)) as [z|e];
    [|left; split; reflexivity].
  destruct (get_pair_rate snap (trading_pair_1 cfg)) as [r1|];
    [|left; split; reflexivity].
  destruct (get_pair_rate snap (trading_pair_2 cfg)) as [r2|];
    [|left; split; reflexivity].
  unfold bind at 1. unfold lift at 1. cbn [res final trace].
  destruct (Dec.div (order_amount_usd cfg) r1) as [a1|e];
    [|left; split; reflexivity].
  unfold bind at 1. unfold lift at 1. cbn [res final trace].
  destruct (Dec.div (order_amount_usd cfg) r2) as [a2|e];
    [|left; split; reflexivity].
  unfold bind at 1. unfold lift at 1. cbn [res final trace].
  destruct (mid_times (get_mid_price snap (trading_pair_1 cfg)) d0_99)
    as [p1|e]; [|left; split; reflexivity].
  unfold bind at 1. unfold lift at 1. cbn [res final trace].
  destruct (mid_times (get_mid_price snap (trading_pair_2 cfg)) d0_99)
    as [p2|e]; [|left; split; reflexivity].
  right. exists z, a1, a2, p1, p2. cbn [app]. apply outcome_eta.
Qed.

End Cycle.

(** ** Traces *)

Lemma count_events_app p tr1 tr2 :
  count_events p (tr1 ++ tr2)
  = (count_events p tr1 + count_events p tr2)%nat.
Proof. unfold count_events. now rewrite filter_app, length_app. Qed.

Lemma net_entries_app tr1 tr2 :
  net_entries (tr1 ++ tr2) = net_entries tr1 + net_entries tr2.
Proof. unfold net_entries. rewrite !count_events_app. lia. Qed.

Lemma quiet_trace_has_no (p : event -> bool) (tr : list event) :
  (forall e, is_log e = true -> p e = false) ->
  forallb is_log tr = true -> filter p tr = [].
Proof.
  intros Hp. induction tr as [|e tr IH]; cbn; [reflexivity|].
  intros H. apply andb_true_iff in H. destruct H as [He Htr].
  rewrite (Hp e He). now apply IH.
Qed.

Lemma existsb_filter_nil (p : event -> bool) (tr : list event) :
  filter p tr = [] -> existsb p tr = false.
Proof.
  induction tr as [|e tr IH]; cbn; [reflexivity|].
  destruct (p e); [discriminate|]. exact IH.
Qed.

Ltac log_case := intros [] H; cbn in H; solve [reflexivity | discriminate H].

Lemma close_trace_counts cfg s a1 a2 p1 p2 :
  filter (is_submit OPEN) (close_trace cfg s a1 a2 p1 p2) = []
  /\ filter (sets_flag true) (close_trace cfg s a1 a2 p1 p2) = []
  /\ filter (sets_flag false) (close_trace cfg s a1 a2 p1 p2)
     = [SetPositionOpen false]
  /\ filter is_flag_write (close_trace cfg s a1 a2 p1 p2)
     = [SetPositionOpen false].
Proof.
  unfold close_trace.
  destruct (truthy (long_order_id s)), (truthy (short_order_id s));
    repeat split; reflexivity.
Qed.

Section CycleShape.

Variable Qsqrt : Q -> Q.
Variable cfg : config.

(** What a cycle can be: nothing, an opening from FLAT, a closing from
    OPEN. *)
Lemma on_tick_shape (snap : snapshot) (s : strategy_state) :
  let o := on_tick Qsqrt cfg snap s in
  quiet s o
  \/ (position_open s = false
      /\ exists a1 a2 p1 p2,
          res o = Done tt
          /\ final o = open_state cfg snap a1 a2 p1 p2
          /\ trace o = open_trace cfg snap a1 a2 p1 p2)
  \/ (position_open s = true
      /\ exists a1 a2 p1 p2,
          res o = Done tt
          /\ final o = close_state s
          /\ trace o = close_trace cfg s a1 a2 p1 p2).
Proof.
  cbv zeta.
  destruct (on_tick_cases Qsqrt cfg snap s)
    as [Hq | [z [a1 [a2 [p1 [p2 Heq]]]]]]; [now left|].
  rewrite Heq.
  destruct (trade_cases cfg snap z a1 a2 p1 p2 s)
    as [[Hs Ho] | [[Hs Ho] | Ho]]; rewrite Ho.
  - right; left. split; [exact Hs|]. exists a1, a2, p1, p2. auto.
  - right; right. split; [exact Hs|]. exists a1, a2, p1, p2. auto.
  - left. split; reflexivity.
Qed.

(** The position flag counts the entries of a cycle. *)
Lemma on_tick_net_entries (snap : snapshot) (s : strategy_state) :
  net_entries (trace (on_tick Qsqrt cfg snap s))
  = b2z (position_open (final (on_tick Qsqrt cfg snap s)))
    - b2z (position_open s).
Proof.
  destruct (on_tick_shape snap s)
    as [[Hf Hq] | [[Hs [a1 [a2 [p1 [p2 [_ [Hf Ht]]]]]]]
                  | [Hs [a1 [a2 [p1 [p2 [_ [Hf Ht]]]]]]]]].
  - rewrite Hf. unfold net_entries, count_events.
    rewrite (quiet_trace_has_no (sets_flag true) _ ltac:(log_case) Hq).
    rewrite (quiet_trace_has_no (sets_flag false) _ ltac:(log_case) Hq).
    cbn. lia.
  - rewrite Hf, Ht, Hs. reflexivity.
  - rewrite Hf, Ht, Hs. unfold net_entries, count_events.
    destruct (close_trace_counts cfg s a1 a2 p1 p2) as [_ [-> [-> _]]].
    reflexivity.
Qed.

Lemma run_net_entries (snaps : list snapshot) (s : strategy_state) :
  net_entries (concat (snd (run Qsqrt cfg snaps s)))
  = b2z (position_open (fst (run Qsqrt cfg snaps s)))
    - b2z (position_open s).
Proof.
  revert s. induction snaps as [|snap rest IH]; intros s; cbn [run].
  - cbn. lia.
  - specialize (IH (final (on_tick Qsqrt cfg snap s))).
    destruct (run Qsqrt cfg rest (final (on_tick Qsqrt cfg snap s)))
      as [s' traces].
    cbn [fst snd concat] in *.
    rewrite net_entries_app, IH, on_tick_net_entries. lia.
Qed.

(** C7.  In every cycle, from any state: opening orders are submitted
    only when the cycle starts FLAT, and then both legs are, and the cycle
    ends OPEN; a cycle that starts OPEN submits no opening order; and the
    position flag is written at most once.  Along every run that starts
    FLAT, the entries not yet left number one when the state is OPEN and
    none when it is FLAT: never more than one paired position. *)
Theorem C7_at_most_one_position :
  (forall snap s,
      let o := on_tick Qsqrt cfg snap s in
      (existsb (is_submit OPEN) (trace o) = true ->
       position_open s = false
       /\ position_open (final o) = true
       /\ count_events (is_submit OPEN) (trace o) = 2%nat)
      /\ (position_open s = true ->
          count_events (is_submit OPEN) (trace o) = 0%nat)
      /\ (count_events is_flag_write (trace o) <= 1)%nat)
  /\ (forall snaps,
         let r := run Qsqrt cfg snaps initial_state in
         net_entries (concat (snd r)) = b2z (position_open (fst r))
         /\ 0 <= net_entries (concat (snd r)) <= 1).
Proof.
  split.
  - intros snap s o. subst o.
    destruct (on_tick_shape snap s)
      as [[Hf Hq] | [[Hs [a1 [a2 [p1 [p2 [_ [Hf Ht]]]]]]]
                    | [Hs [a1 [a2 [p1 [p2 [_ [Hf Ht]]]]]]]]].
    + pose proof (quiet_trace_has_no (is_submit OPEN) _ ltac:(log_case) Hq)
        as Hno.
      pose proof (quiet_trace_has_no is_flag_write _ ltac:(log_case) Hq)
        as Hnw.
      unfold count_events. rewrite Hno, Hnw.
      rewrite (existsb_filter_nil _ _ Hno).
      repeat split; try discriminate; cbn; lia.
    + rewrite Hf, Ht, Hs. repeat split; try discriminate; cbn; lia.
    + destruct (close_trace_counts cfg s a1 a2 p1 p2)
        as [Hno [_ [_ Hw]]].
      unfold count_events. rewrite Ht, Hno, Hw.
      rewrite (existsb_filter_nil _ _ Hno).
      repeat split; try discriminate; cbn; lia.
  - intros snaps r. subst r.
    rewrite run_net_entries. cbn [initial_state position_open b2z].
    destruct (position_open (fst (run Qsqrt cfg snaps initial_state)));
      cbn; lia.
Qed.

End CycleShape.

(** ** Order references and the position flag *)

Section References.

Variable Qsqrt : Q -> Q.
Variable cfg : config.

(** While the flag is set, the two references are the ones assigned by
    the latest opening cycle. *)
Lemma reachable_open_history (s : strategy_state) :
  reachable Qsqrt cfg s -> position_open s = true ->
  exists s0 snap0 o1 o2,
    reachable Qsqrt cfg s0 /\ accepting snap0
    /\ trace (on_tick Qsqrt cfg snap0 s0)
       = [Submit o1; SetLongOrderId (place_order snap0 o1);
          Submit o2; SetShortOrderId (place_order snap0 o2);
          SetPositionOpen true]
    /\ long_order_id s = place_order snap0 o1
    /\ short_order_id s = place_order snap0 o2.
Proof.
  induction 1 as [|s snap Hreach IH Hacc]; intros Hopen.
  - discriminate Hopen.
  - destruct (on_tick_shape Qsqrt cfg snap s)
      as [[Hf Hq] | [[Hs [a1 [a2 [p1 [p2 [_ [Hf Ht]]]]]]]
                    | [Hs [a1 [a2 [p1 [p2 [_ [Hf Ht]]]]]]]]].
    + rewrite Hf in *. now apply IH.
    + exists s, snap. do 2 eexists.
      split; [exact Hreach|]. split; [exact Hacc|].
      split; [exact Ht|]. rewrite Hf. split; reflexivity.
    + rewrite Hf in Hopen. discriminate Hopen.
Qed.

(** C10.  In every reachable state with the position flag set, the two
    order references are those assigned by the cycle that set the flag,
    each assigned before the flag was set; they are usable, so that when
    a cycle closes the position both guarded legs fire: a buy-to-close on
    leg 1 and a sell-to-close on leg 2, then the flag is cleared.
    (Reachable: through cycles whose execution interface returns usable
    references.) *)
Theorem C10_references_precede_flag (s : strategy_state) :
  reachable Qsqrt cfg s -> position_open s = true ->
  (exists s0 snap0 o1 o2,
      reachable Qsqrt cfg s0 /\ accepting snap0
      /\ trace (on_tick Qsqrt cfg snap0 s0)
         = [Submit o1; SetLongOrderId (place_order snap0 o1);
            Submit o2; SetShortOrderId (place_order snap0 o2);
            SetPositionOpen true]
      /\ long_order_id s = place_order snap0 o1
      /\ short_order_id s = place_order snap0 o2)
  /\ truthy (long_order_id s) = true
  /\ truthy (short_order_id s) = true
  /\ forall snap,
      existsb (sets_flag false) (trace (on_tick Qsqrt cfg snap s)) = true ->
      exists a1 a2 p1 p2,
        trace (on_tick Qsqrt cfg snap s)
        = [Submit (market cfg BUY (trading_pair_1 cfg) a1 p1 CLOSE);
           Submit (market cfg SELL (trading_pair_2 cfg) a2 p2 CLOSE);
           SetPositionOpen false]
        /\ position_open (final (on_tick Qsqrt cfg snap s)) = false.
Proof.
  intros Hreach Hopen.
  destruct (reachable_open_history s Hreach Hopen)
    as [s0 [snap0 [o1 [o2 [Hr0 [Hacc [Htr [Hl Hs]]]]]]]].
  assert (Hlong : truthy (long_order_id s) = true)
    by (rewrite Hl; apply Hacc).
  assert (Hshort : truthy (short_order_id s) = true)
    by (rewrite Hs; apply Hacc).
  split; [now exists s0, snap0, o1, o2|].
  split; [exact Hlong|]. split; [exact Hshort|].
  intros snap Hclose.
  destruct (on_tick_shape Qsqrt cfg snap s)
    as [[Hf Hq] | [[Hflat _] | [_ [a1 [a2 [p1 [p2 [_ [Hf Ht]]]]]]]]].
  - rewrite (existsb_filter_nil _ _
               (quiet_trace_has_no (sets_flag false) _ ltac:(log_case) Hq))
      in Hclose.
    discriminate Hclose.
  - congruence.
  - exists a1, a2, p1, p2. rewrite Ht, Hf.
    unfold close_trace. rewrite Hlong, Hshort. split; reflexivity.
Qed.

(** ** Missing data *)

(** The recoverable conditions the cycle handles: feeds not ready or
    history too short, a missing conversion rate, and a missing z-score
    once amounts and prices are computed.  Each leaves the state as it
    was and submits nothing. *)
Lemma handled_conditions_do_nothing (snap : snapshot) (s : strategy_state) :
  (all_candles_ready snap = false ->
   on_tick Qsqrt cfg snap s = mkOutcome (Done tt) s [])
  /\ (calculate_spread_and_zscore Qsqrt cfg
        (candles_df (candles_1 snap)) (candles_df (candles_2 snap)) = None ->
      res (on_tick Qsqrt cfg snap s) = Done tt
      /\ quiet s (on_tick Qsqrt cfg snap s))
  /\ (forall df z,
         all_candles_ready snap = true ->
         calculate_spread_and_zscore Qsqrt cfg
           (candles_df (candles_1 snap)) (candles_df (candles_2 snap))
         = Some df ->
         iloc_last (map z_score df) = Done z ->
         get_pair_rate snap (trading_pair_1 cfg) = None
         \/ get_pair_rate snap (trading_pair_2 cfg) = None ->
         res (on_tick Qsqrt cfg snap s) = Done tt
         /\ quiet s (on_tick Qsqrt cfg snap s))
  /\ (forall a1 a2 p1 p2,
         on_tick_trade cfg snap NaN a1 a2 p1 p2 s = mkOutcome (Done tt) s []).
Proof.
  split; [|split; [|split]].
  - intros H. unfold on_tick. now rewrite H.
  - intros H. unfold on_tick, quiet. rewrite H.
    destruct (all_candles_ready snap); repeat split.
  - intros df z Hready Hdf Hz Hrate. unfold on_tick, quiet.
    rewrite Hready, Hdf. unfold bind at 1. unfold lift at 1. rewrite Hz.
    cbn [res final trace].
    destruct Hrate as [-> | ->];
      [|destruct (get_pair_rate snap (trading_pair_1 cfg))];
      repeat split.
  - intros a1 a2 p1 p2.
    destruct (position_open s) eqn:Hs.
    + now apply trade_hold_open.
    + now apply trade_hold_flat.
Qed.

(** C8 (where the code departs from it).  A cycle that has a frame, a
    z-score, both conversion rates and both amounts, and finds no mid
    price for a leg, stops with [TypeError]: the state is unchanged and
    nothing is submitted, but the exception leaves [on_tick]. *)
Theorem C8_null_mid_price_raises
        (snap : snapshot) (s : strategy_state)
        (df : list row) (z : float) (r1 r2 a1 a2 : decimal) :
  all_candles_ready snap = true ->
  calculate_spread_and_zscore Qsqrt cfg
    (candles_df (candles_1 snap)) (candles_df (candles_2 snap)) = Some df ->
  iloc_last (map z_score df) = Done z ->
  get_pair_rate snap (trading_pair_1 cfg) = Some r1 ->
  get_pair_rate snap (trading_pair_2 cfg) = Some r2 ->
  Dec.div (order_amount_usd cfg) r1 = Done a1 ->
  Dec.div (order_amount_usd cfg) r2 = Done a2 ->
  get_mid_price snap (trading_pair_1 cfg) = None
  \/ ((exists p1, mid_times (get_mid_price snap (trading_pair_1 cfg)) d0_99
                  = Done p1)
      /\ get_mid_price snap (trading_pair_2 cfg) = None) ->
  on_tick Qsqrt cfg snap s = mkOutcome (Raised TypeError) s [].
Proof.
  intros Hready Hdf Hz Hr1 Hr2 Ha1 Ha2 Hmid.
  unfold on_tick. rewrite Hready, Hdf.
  unfold bind at 1. unfold lift at 1. rewrite Hz. cbn [res final trace].
  rewrite Hr1, Hr2.
  unfold bind at 1. unfold lift at 1. rewrite Ha1. cbn [res final trace].
  unfold bind at 1. unfold lift at 1. rewrite Ha2. cbn [res final trace].
  unfold bind at 1. unfold lift at 1.
  destruct Hmid as [-> | [[p1 ->] ->]]; cbn [mid_times res final trace].
  - reflexivity.
  - unfold bind at 1. unfold lift at 1. reflexivity.
Qed.

End References.

(** ** Construction *)

(** C9 (as the code behaves).  The constructor does not look at the
    thresholds: it starts the strategy, in its initial state, for every
    configuration, malformed thresholds included, and no configuration
    error exists.  The trade statement never fails, whatever the
    thresholds. *)
Theorem C9_no_threshold_validation (cfg : config) :
  init cfg = Started initial_state
  /\ forall snap z a1 a2 p1 p2 s,
      res (on_tick_trade cfg snap z a1 a2 p1 p2 s) = Done tt.
Proof.
  split; [reflexivity|].
  intros snap z a1 a2 p1 p2 s.
  destruct (trade_cases cfg snap z a1 a2 p1 p2 s)
    as [[_ ->] | [[_ ->] | ->]]; reflexivity.
Qed.

(** C9 as stated fails: malformed thresholds do not stop construction. *)
Lemma C9_counterexample :
  ~ (malformed inverted_config -> init inverted_config = ConfigurationError).
Proof.
  intros H.
  assert (Hbad : malformed inverted_config).
  { left. cbn. discriminate. }
  specialize (H Hbad). discriminate H.
Qed.

(** ** The cycle reaches the trade statement *)

(** With a frame, both conversion rates, both amounts and both prices,
    the cycle is the trade statement on the z-score of the last row. *)
Lemma on_tick_reaches_trade
      (Qsqrt : Q -> Q) (cfg : config) (snap : snapshot) (s : strategy_state)
      (df : list row) (z : float) (r1 r2 a1 a2 p1 p2 : decimal) :
  all_candles_ready snap = true ->
  calculate_spread_and_zscore Qsqrt cfg
    (candles_df (candles_1 snap)) (candles_df (candles_2 snap)) = Some df ->
  iloc_last (map z_score df) = Done z ->
  get_pair_rate snap (trading_pair_1 cfg) = Some r1 ->
  get_pair_rate snap (trading_pair_2 cfg) = Some r2 ->
  Dec.div (order_amount_usd cfg) r1 = Done a1 ->
  Dec.div (order_amount_usd cfg) r2 = Done a2 ->
  mid_times (get_mid_price snap (trading_pair_1 cfg)) d0_99 = Done p1 ->
  mid_times (get_mid_price snap (trading_pair_2 cfg)) d0_99 = Done p2 ->
  on_tick Qsqrt cfg snap s = on_tick_trade cfg snap z a1 a2 p1 p2 s.
Proof.
  intros Hready Hdf Hz Hr1 Hr2 Ha1 Ha2 Hp1 Hp2.
  unfold on_tick. rewrite Hready, Hdf.
  unfold bind at 1. unfold lift at 1. rewrite Hz. cbn [res final trace].
  rewrite Hr1, Hr2.
  unfold bind at 1. unfold lift at 1. rewrite Ha1. cbn [res final trace].
  unfold bind at 1. unfold lift at 1. rewrite Ha2. cbn [res final trace].
  unfold bind at 1. unfold lift at 1. rewrite Hp1. cbn [res final trace].
  unfold bind at 1. unfold lift at 1. rewrite Hp2. cbn [res final trace].
  cbn [app]. apply outcome_eta.
Qed.

(** ** Concrete runs *)

Lemma rising_accepting : accepting rising_snapshot.
Proof. intros o. reflexivity. Qed.

Lemma iloc_last_nonempty {A : Type} (col : list A) :
  (0 < length col)%nat -> exists x, iloc_last col = Done x.
Proof.
  intros H. unfold iloc_last.
  destruct (rev col) as [|x l] eqn:Hrev.
  - apply (f_equal (@length A)) in Hrev. rewrite length_rev in Hrev.
    cbn in Hrev. lia.
  - now exists x.
Qed.

(** The source's configuration, 250 candles per leg, no mid price: the
    cycle raises. *)
Lemma C8_witness :
  on_tick Qsqrt_floor default_config no_mid_snapshot initial_state
  = mkOutcome (Raised TypeError) initial_state [].
Proof.
  pose (df := merge (candles_df (candles_1 no_mid_snapshot))
                    (candles_df (candles_2 no_mid_snapshot))).
  assert (Hlen : length df = 250%nat) by (vm_compute; reflexivity).
  destruct (spread_zscore_ready Qsqrt_floor default_config df)
    as [rows [Hrows Hlrows]].
  { rewrite Hlen. cbn. lia. }
  destruct (iloc_last_nonempty (map z_score rows)) as [z Hz].
  { rewrite length_map, Hlrows, Hlen. lia. }
  eapply (C8_null_mid_price_raises Qsqrt_floor default_config
            no_mid_snapshot initial_state rows z).
  - reflexivity.
  - exact Hrows.
  - exact Hz.
  - reflexivity.
  - reflexivity.
  - vm_compute; reflexivity.
  - vm_compute; reflexivity.
  - left; reflexivity.
Defined.

(** One opening cycle, then a closing one: the references stored by the
    first are usable and the second closes both legs. *)
Lemma C10_witness :
  let s1 := final (on_tick Qsqrt_floor small_config rising_snapshot
                     initial_state) in
  position_open s1 = true
  /\ truthy (long_order_id s1) = true
  /\ truthy (short_order_id s1) = true
  /\ decision_of (trace (on_tick Qsqrt_floor small_config falling_snapshot s1))
     = CLOSE_BOTH.
Proof.
  intros s1.
  assert (Hreach : reachable Qsqrt_floor small_config s1).
  { apply reach_tick; [apply reach_init | apply rising_accepting]. }
  assert (Hopen : position_open s1 = true) by (vm_compute; reflexivity).
  destruct (C10_references_precede_flag Qsqrt_floor small_config s1
              Hreach Hopen) as [_ [Hlong [Hshort Hclose]]].
  split; [exact Hopen|]. split; [exact Hlong|]. split; [exact Hshort|].
  destruct (Hclose falling_snapshot) as [a1 [a2 [p1 [p2 [Htr _]]]]].
  - vm_compute; reflexivity.
  - rewrite Htr. reflexivity.
Defined.

(* ================================================================== *)
(** * Further properties *)

(** ** The merge of the two candle frames *)

Lemma in_merge (df1 df2 : list candle) (r : merged_row) :
  In r (merge df1 df2)
  <-> exists c1 c2,
      In c1 df1 /\ In c2 df2
      /\ c_timestamp c2 = c_timestamp c1
      /\ r = mkMerged (c_timestamp c1) (c_close c1) (c_close c2).
Proof.
  unfold merge. rewrite in_flat_map. split.
  - intros [c1 [H1 H]]. apply in_map_iff in H. destruct H as [c2 [<- H2]].
    apply filter_In in H2. destruct H2 as [H2 Heq]. apply Z.eqb_eq in Heq.
    now exists c1, c2.
  - intros [c1 [c2 [H1 [H2 [Heq ->]]]]]. exists c1. split; [exact H1|].
    apply in_map_iff. exists c2. split; [reflexivity|].
    apply filter_In. split; [exact H2|]. now apply Z.eqb_eq.
Qed.

Lemma unique_key_filter (df2 : list candle) (t : Z) :
  NoDup (map c_timestamp df2) ->
  (filter (fun r2 => c_timestamp r2 =? t) df2 = []
   /\ existsb (fun c => c_timestamp c =? t) df2 = false)
  \/ (exists c, filter (fun r2 => c_timestamp r2 =? t) df2 = [c]
                /\ existsb (fun c => c_timestamp c =? t) df2 = true).
Proof.
  induction df2 as [|c rest IH]; cbn [map filter existsb]; intros Hnd.
  - now left.
  - apply NoDup_cons_iff in Hnd. destruct Hnd as [Hnotin Hnd].
    destruct (c_timestamp c =? t) eqn:Hc.
    + right. exists c. split; [|reflexivity]. f_equal.
      apply Z.eqb_eq in Hc.
      destruct (filter (fun r2 => c_timestamp r2 =? t) rest) as [|c' l] eqn:Hf;
        [reflexivity|].
      exfalso. apply Hnotin.
      assert (Hin : In c' (filter (fun r2 => c_timestamp r2 =? t) rest))
        by (rewrite Hf; now left).
      apply filter_In in Hin. destruct Hin as [Hin Heq].
      apply Z.eqb_eq in Heq. rewrite Hc, <- Heq. now apply in_map.
    + cbn [orb]. now apply IH.
Qed.

Lemma merge_cons (c : candle) (df1 df2 : list candle) :
  merge (c :: df1) df2
  = map (fun r2 => mkMerged (c_timestamp c) (c_close c) (c_close r2))
        (filter (fun r2 => c_timestamp r2 =? c_timestamp c) df2)
    ++ merge df1 df2.
Proof. reflexivity. Qed.

(** With one candle per timestamp in the second frame, the merged
    timestamps are those of the first frame that the second frame has,
    in the order of the first frame. *)
Lemma merge_timestamps (df1 df2 : list candle) :
  NoDup (map c_timestamp df2) ->
  map m_timestamp (merge df1 df2)
  = filter (fun t => existsb (fun c => c_timestamp c =? t) df2)
           (map c_timestamp df1).
Proof.
  intros Hnd. induction df1 as [|c df1 IH]; [reflexivity|].
  rewrite merge_cons, map_app, IH. cbn [map filter].
  destruct (unique_key_filter df2 (c_timestamp c) Hnd)
    as [[-> ->] | [c' [-> ->]]]; reflexivity.
Qed.



Section EngineEdges.

Variable Qsqrt : Q -> Q.
Variable cfg : config.

(** X3.  Frames with no timestamp in common (an empty frame included)
    merge to nothing, and the computation then returns nothing for any
    positive [spread_length]. *)
Theorem no_common_timestamp_not_ready (df1 df2 : list candle) :
  (forall c1 c2, In c1 df1 -> In c2 df2 ->
                 c_timestamp c2 <> c_timestamp c1) ->
  (0 < spread_length cfg)%nat ->
  merge df1 df2 = []
  /\ calculate_spread_and_zscore Qsqrt cfg df1 df2 = None.
Proof.
  intros Hdisj Hpos.
  assert (Hnil : merge df1 df2 = []).
  { destruct (merge df1 df2) as [|r l] eqn:Hm; [reflexivity|].
    exfalso.
    assert (Hin : In r (merge df1 df2)) by (rewrite Hm; now left).
    apply in_merge in Hin.
    destruct Hin as [c1 [c2 [H1 [H2 [Heq _]]]]].
    exact (Hdisj c1 c2 H1 H2 Heq). }
  split; [exact Hnil|].
  unfold calculate_spread_and_zscore, spread_zscore. rewrite Hnil.
  cbn [length]. destruct (spread_length cfg); [lia|reflexivity].
Qed.

Lemma spread_zscore_length (df : list merged_row) (rows : list row) :
  spread_zscore Qsqrt cfg df = Some rows -> length rows = length df.
Proof.
  intros Hrows.
  destruct (le_lt_dec (spread_length cfg) (length df)) as [Hle|Hlt].
  - destruct (spread_zscore_ready Qsqrt cfg df Hle) as [rows' [H1 H2]].
    congruence.
  - unfold spread_zscore in Hrows. apply Nat.leb_gt in Hlt.
    rewrite Hlt in Hrows. discriminate Hrows.
Qed.

Lemma observations_drop (l : list float) (v : float) :
  In v l -> finiteb v = false ->
  (length (observations l) < length l)%nat.
Proof.
  induction l as [|x l IH]; cbn [In]; intros Hin Hv; [contradiction|].
  pose proof (length_observations l) as Hle.
  destruct Hin as [-> | Hin].
  - destruct v; try discriminate Hv; cbn; lia.
  - specialize (IH Hin Hv). destruct x; cbn; lia.
Qed.

(** X4.  A spread that is missing or infinite makes the z-score missing
    at its own row and at every later row whose window still holds it:
    the [zscore_length - 1] rows that follow. *)
Theorem gap_in_window_no_signal
        (df : list merged_row) (rows : list row)
        (i j : nat) (r : row) (v : float) :
  spread_zscore Qsqrt cfg df = Some rows ->
  nth_error rows i = Some r ->
  nth_error (spread_col cfg df) j = Some v ->
  finiteb v = false ->
  (S i - zscore_length cfg <= j <= i)%nat ->
  z_score r = NaN.
Proof.
  intros Hrows Hr Hv Hfin Hj.
  assert (Hi : (i < length df)%nat).
  { rewrite <- (spread_zscore_length df rows Hrows).
    apply nth_error_Some. congruence. }
  destruct (nth_error df i) as [a|] eqn:Ha;
    [|apply nth_error_None in Ha; lia].
  rewrite (spread_zscore_row Qsqrt cfg df rows i a Hrows Ha) in Hr.
  injection Hr as <-. cbn [z_score].
  assert (Hin : In v (window (zscore_length cfg) i (spread_col cfg df))).
  { apply (nth_error_In _ (j - (S i - zscore_length cfg))).
    unfold window. rewrite nth_error_skipn, nth_error_firstn.
    replace (S i - zscore_length cfg + (j - (S i - zscore_length cfg)))%nat
      with j by lia.
    replace (j <? S i)%nat with true
      by (symmetry; apply Nat.ltb_lt; lia).
    exact Hv. }
  pose proof (observations_drop _ v Hin Hfin) as Hshort.
  rewrite length_window in Hshort by now rewrite length_spread_col.
  assert (Hmean : stat_at (zscore_length cfg) roll_mean (spread_col cfg df) i
                  = NaN).
  { unfold stat_at. cbv zeta.
    replace (length (observations
                       (window (zscore_length cfg) i (spread_col cfg df)))
             <? zscore_length cfg)%nat with true; [reflexivity|].
    symmetry. apply Nat.ltb_lt. lia. }
  rewrite Hmean, sub_NaN_r. reflexivity.
Qed.

End EngineEdges.

(** ** What a cycle can do *)

Lemma trade_never_logs (cfg : config) (snap : snapshot) (z : float)
      (a1 a2 p1 p2 : decimal) (s : strategy_state) :
  existsb is_log (trace (on_tick_trade cfg snap z a1 a2 p1 p2 s)) = false.
Proof.
  destruct (trade_cases cfg snap z a1 a2 p1 p2 s)
    as [[_ ->] | [[_ ->] | ->]]; cbn [trace]; try reflexivity.
  unfold close_trace.
  destruct (truthy (long_order_id s)), (truthy (short_order_id s));
    reflexivity.
Qed.

Lemma trade_never_raises (cfg : config) (snap : snapshot) (z : float)
      (a1 a2 p1 p2 : decimal) (s : strategy_state) :
  res (on_tick_trade cfg snap z a1 a2 p1 p2 s) = Done tt.
Proof.
  destruct (trade_cases cfg snap z a1 a2 p1 p2 s)
    as [[_ ->] | [[_ ->] | ->]]; reflexivity.
Qed.

Section CycleOutcomes.

Variable Qsqrt : Q -> Q.
Variable cfg : config.

Lemma spread_zscore_None_iff (df : list merged_row) :
  spread_zscore Qsqrt cfg df = None
  <-> (length df < spread_length cfg)%nat.
Proof.
  unfold spread_zscore.
  destruct (spread_length cfg <=? length df)%nat eqn:Hle.
  - apply Nat.leb_le in Hle. split; [discriminate|lia].
  - apply Nat.leb_gt in Hle. split; auto.
Qed.

(** A cycle either has all its inputs and is the trade statement on
    them, or lacks one and stops where it is missing. *)
Lemma on_tick_inversion (snap : snapshot) (s : strategy_state) :
  let o := on_tick Qsqrt cfg snap s in
  (exists z a1 a2 p1 p2,
      cycle_inputs Qsqrt cfg snap z a1 a2 p1 p2
      /\ o = on_tick_trade cfg snap z a1 a2 p1 p2 s)
  \/ ((forall z a1 a2 p1 p2, ~ cycle_inputs Qsqrt cfg snap z a1 a2 p1 p2)
      /\ ((all_candles_ready snap = false /\ o = mkOutcome (Done tt) s [])
          \/ (all_candles_ready snap = true
              /\ calculate_spread_and_zscore Qsqrt cfg
                   (candles_df (candles_1 snap)) (candles_df (candles_2 snap))
                 = None
              /\ exists msg, o = mkOutcome (Done tt) s [Log ERROR msg])
          \/ (all_candles_ready snap = true
              /\ (get_pair_rate snap (trading_pair_1 cfg) = None
                  \/ get_pair_rate snap (trading_pair_2 cfg) = None)
              /\ (exists df z,
                     calculate_spread_and_zscore Qsqrt cfg
                       (candles_df (candles_1 snap))
                       (candles_df (candles_2 snap)) = Some df
                     /\ iloc_last (map z_score df) = Done z)
              /\ exists msg, o = mkOutcome (Done tt) s [Log WARNING msg])
          \/ (all_candles_ready snap = true
              /\ exists e, o = mkOutcome (Raised e) s []))).
Proof.
  cbv zeta. unfold on_tick, cycle_inputs.
  destruct (all_candles_ready snap) eqn:Hready.
  2:{ right. split; [intros z a1 a2 p1 p2 [H _]; discriminate H|].
      left. split; reflexivity. }
  destruct (calculate_spread_and_zscore Qsqrt cfg _ _) as [df|] eqn:Hdf.
  2:{ right. split.
      - intros z a1 a2 p1 p2 [_ [df [r1 [r2 [H _]]]]]. discriminate H.
      - right; left. repeat split. eexists. reflexivity. }
  unfold bind at 1. unfold lift at 1. cbn [res final trace].
  destruct (iloc_last (map z_score df)) as [z|e] eqn:Hz.
  2:{ right. split.
      - intros z a1 a2 p1 p2 [_ [df' [r1 [r2 [H [H' _]]]]]]. congruence.
      - do 3 right. split; [reflexivity|]. exists e. reflexivity. }
  destruct (get_pair_rate snap (trading_pair_1 cfg)) as [r1|] eqn:Hr1.
  2:{ right. split.
      - intros z' a1 a2 p1 p2 [_ [df' [r1 [r2 [_ [_ [H _]]]]]]]. discriminate H.
      - do 2 right; left. split; [reflexivity|]. split; [now left|].
        split; [now exists df, z|]. eexists. reflexivity. }
  destruct (get_pair_rate snap (trading_pair_2 cfg)) as [r2|] eqn:Hr2.
  2:{ right. split.
      - intros z' a1 a2 p1 p2 [_ [df' [r1' [r2 [_ [_ [_ [H _]]]]]]]].
        discriminate H.
      - do 2 right; left. split; [reflexivity|]. split; [now right|].
        split; [now exists df, z|]. eexists. reflexivity. }
  unfold bind at 1. unfold lift at 1. cbn [res final trace].
  destruct (Dec.div (order_amount_usd cfg) r1) as [a1|e] eqn:Ha1.
  2:{ right. split.
      - intros z' a1 a2 p1 p2 [_ [df' [r1' [r2' [_ [_ [H1 [_ [H _]]]]]]]]].
        congruence.
      - do 3 right. split; [reflexivity|]. exists e. reflexivity. }
  unfold bind at 1. unfold lift at 1. cbn [res final trace].
  destruct (Dec.div (order_amount_usd cfg) r2) as [a2|e] eqn:Ha2.
  2:{ right. split.
      - intros z' a1' a2 p1 p2
               [_ [df' [r1' [r2' [_ [_ [_ [H2 [_ [H _]]]]]]]]]].
        congruence.
      - do 3 right. split; [reflexivity|]. exists e. reflexivity. }
  unfold bind at 1. unfold lift at 1. cbn [res final trace].
  destruct (mid_times (get_mid_price snap (trading_pair_1 cfg)) d0_99)
    as [p1|e] eqn:Hp1.
  2:{ right. split.
      - intros z' a1' a2' p1 p2
               [_ [df' [r1' [r2' [_ [_ [_ [_ [_ [_ [H _]]]]]]]]]]].
        discriminate H.
      - do 3 right. split; [reflexivity|]. exists e. reflexivity. }
  unfold bind at 1. unfold lift at 1. cbn [res final trace].
  destruct (mid_times (get_mid_price snap (trading_pair_2 cfg)) d0_99)
    as [p2|e] eqn:Hp2.
  2:{ right. split.
      - intros z' a1' a2' p1' p2
               [_ [df' [r1' [r2' [_ [_ [_ [_ [_ [_ [_ H]]]]]]]]]]].
        discriminate H.
      - do 3 right. split; [reflexivity|]. exists e. reflexivity. }
  left. exists z, a1, a2, p1, p2. split.
  - split; [reflexivity|]. exists df, r1, r2. repeat split; assumption.
  - cbn [app]. apply outcome_eta.
Qed.

(** The inputs of a cycle are determined by the snapshot. *)
Lemma cycle_inputs_unique (snap : snapshot)
      (z z' : float) (a1 a2 p1 p2 a1' a2' p1' p2' : decimal) :
  cycle_inputs Qsqrt cfg snap z a1 a2 p1 p2 ->
  cycle_inputs Qsqrt cfg snap z' a1' a2' p1' p2' ->
  z = z' /\ a1 = a1' /\ a2 = a2' /\ p1 = p1' /\ p2 = p2'.
Proof.
  intros [_ [df [r1 [r2 [H1 [H2 [H3 [H4 [H5 [H6 [H7 H8]]]]]]]]]]]
         [_ [df' [r1' [r2' [G1 [G2 [G3 [G4 [G5 [G6 [G7 G8]]]]]]]]]]].
  assert (df = df') by congruence. subst df'.
  assert (r1 = r1') by congruence. subst r1'.
  assert (r2 = r2') by congruence. subst r2'.
  repeat split; congruence.
Qed.

(** X5.  An exception that leaves [on_tick] leaves nothing behind: the
    state is the one the cycle started in, no order was submitted and
    nothing was logged; and it can only come from a cycle whose feeds
    are ready and whose history is long enough. *)
Theorem exception_leaves_no_trace
        (snap : snapshot) (s : strategy_state) (e : exn) :
  res (on_tick Qsqrt cfg snap s) = Raised e ->
  final (on_tick Qsqrt cfg snap s) = s
  /\ trace (on_tick Qsqrt cfg snap s) = []
  /\ all_candles_ready snap = true
  /\ (spread_length cfg
      <= length (merge (candles_df (candles_1 snap))
                       (candles_df (candles_2 snap))))%nat.
Proof.
  intros Hres.
  destruct (on_tick_inversion snap s)
    as [[z [a1 [a2 [p1 [p2 [_ Heq]]]]]]
       | [_ [[_ Heq] | [[_ [_ [msg Heq]]]
                       | [[_ [_ [_ [msg Heq]]]] | [Hready [e' Heq]]]]]]];
    rewrite Heq in Hres |- *.
  - rewrite trade_never_raises in Hres. discriminate Hres.
  - discriminate Hres.
  - discriminate Hres.
  - discriminate Hres.
  - cbn [final trace]. repeat split; try assumption.
    destruct (le_lt_dec (spread_length cfg)
                (length (merge (candles_df (candles_1 snap))
                               (candles_df (candles_2 snap)))))
      as [Hle|Hlt]; [exact Hle|].
    exfalso. apply spread_zscore_None_iff in Hlt.
    unfold on_tick in Heq. rewrite Hready in Heq.
    unfold calculate_spread_and_zscore in Heq. rewrite Hlt in Heq.
    discriminate Heq.
Qed.

(** X6.  The "not enough data" error is logged exactly when both feeds
    are ready and the merged history is shorter than [spread_length];
    the conversion-rate warning is logged exactly when the feeds are
    ready, the frame has a last z-score and a conversion rate is
    missing.  A cycle that logs submits no order and keeps its state. *)
Theorem what_a_cycle_logs (snap : snapshot) (s : strategy_state) :
  let o := on_tick Qsqrt cfg snap s in
  (existsb is_error_log (trace o) = true
   <-> all_candles_ready snap = true
       /\ (length (merge (candles_df (candles_1 snap))
                         (candles_df (candles_2 snap)))
           < spread_length cfg)%nat)
  /\ (existsb is_warning_log (trace o) = true
      <-> all_candles_ready snap = true
          /\ (exists df z,
                 calculate_spread_and_zscore Qsqrt cfg
                   (candles_df (candles_1 snap)) (candles_df (candles_2 snap))
                 = Some df
                 /\ iloc_last (map z_score df) = Done z)
          /\ (get_pair_rate snap (trading_pair_1 cfg) = None
              \/ get_pair_rate snap (trading_pair_2 cfg) = None))
  /\ (existsb is_log (trace o) = true ->
      final o = s /\ res o = Done tt
      /\ count_events (is_submit OPEN) (trace o) = 0%nat
      /\ count_events (is_submit CLOSE) (trace o) = 0%nat).
Proof.
  cbv zeta.
  assert (Hsub : forall e, is_error_log e = true \/ is_warning_log e = true ->
                           is_log e = true).
  { intros [] [H|H]; try discriminate H; reflexivity. }
  assert (Hnolog : forall (p : event -> bool) tr,
             (forall e, p e = true -> is_log e = true) ->
             existsb is_log tr = false -> existsb p tr = false).
  { intros p tr Hp. induction tr as [|e tr IH]; cbn; [reflexivity|].
    intros H. apply orb_false_iff in H. destruct H as [He Htr].
    rewrite (IH Htr), orb_false_r.
    destruct (p e) eqn:Hpe; [|reflexivity].
    rewrite (Hp e Hpe) in He. discriminate He. }
  destruct (on_tick_inversion snap s)
    as [[z [a1 [a2 [p1 [p2 [Hin Heq]]]]]]
       | [Hno [[Hready Heq] | [[Hready [Hdf [msg Heq]]]
                | [[Hready [Hrate [[df [z [Hdf Hz]]] [msg Heq]]]]
                  | [Hready [e' Heq]]]]]]];
    rewrite Heq.
  - pose proof (trade_never_logs cfg snap z a1 a2 p1 p2 s) as Hl.
    rewrite Hl.
    rewrite (Hnolog is_error_log _ (fun e H => Hsub e (or_introl H)) Hl).
    rewrite (Hnolog is_warning_log _ (fun e H => Hsub e (or_intror H)) Hl).
    destruct Hin as [Hready [df [r1 [r2 [Hdf [Hz [Hr1 [Hr2 _]]]]]]]].
    split; [|split].
    + split; [discriminate|]. intros [_ Hlt].
      apply spread_zscore_None_iff in Hlt.
      unfold calculate_spread_and_zscore in Hdf. congruence.
    + split; [discriminate|]. intros [_ [_ [H|H]]]; congruence.
    + discriminate.
  - cbn [trace existsb final res]. split; [|split].
    + split; [discriminate|]. intros [H _]. congruence.
    + split; [discriminate|]. intros [H _]. congruence.
    + discriminate.
  - cbn [trace existsb final res is_error_log is_warning_log orb].
    split; [|split].
    + split; [intros _|reflexivity]. split; [exact Hready|].
      now apply spread_zscore_None_iff.
    + split; [discriminate|]. intros [_ [[df [z [H _]]] _]]. congruence.
    + intros _. repeat split.
  - cbn [trace existsb final res is_error_log is_warning_log orb].
    split; [|split].
    + split; [discriminate|]. intros [_ Hlt].
      apply spread_zscore_None_iff in Hlt.
      unfold calculate_spread_and_zscore in Hdf. congruence.
    + split; [intros _|reflexivity].
      split; [exact Hready|]. split; [now exists df, z|exact Hrate].
    + intros _. repeat split.
  - cbn [trace existsb final res]. split; [|split].
    + split; [discriminate|]. intros [_ Hlt].
      apply spread_zscore_None_iff in Hlt.
      unfold on_tick in Heq. rewrite Hready in Heq.
      unfold calculate_spread_and_zscore in Heq. rewrite Hlt in Heq.
      discriminate Heq.
    + split; [discriminate|].
      intros [_ [[df [z [Hdf Hz]]] Hrate]].
      unfold on_tick in Heq. rewrite Hready, Hdf in Heq.
      unfold bind at 1 in Heq. unfold lift at 1 in Heq.
      rewrite Hz in Heq. cbn [res final trace] in Heq.
      destruct Hrate as [Hr|Hr]; rewrite Hr in Heq;
        [|destruct (get_pair_rate snap (trading_pair_1 cfg))];
        discriminate Heq.
    + discriminate.
Qed.

End CycleOutcomes.

Section CycleDecisions.

Variable Qsqrt : Q -> Q.
Variable cfg : config.

Lemma stopped_cycle_trace (snap : snapshot) (s : strategy_state) :
  (forall z a1 a2 p1 p2, ~ cycle_inputs Qsqrt cfg snap z a1 a2 p1 p2) ->
  final (on_tick Qsqrt cfg snap s) = s
  /\ forallb is_log (trace (on_tick Qsqrt cfg snap s)) = true.
Proof.
  intros Hno.
  destruct (on_tick_inversion Qsqrt cfg snap s)
    as [[z [a1 [a2 [p1 [p2 [Hin _]]]]]]
       | [_ [[_ Heq] | [[_ [_ [msg Heq]]]
                       | [[_ [_ [_ [msg Heq]]]] | [_ [e' Heq]]]]]]].
  - exfalso. exact (Hno _ _ _ _ _ Hin).
  - rewrite Heq. split; reflexivity.
  - rewrite Heq. split; reflexivity.
  - rewrite Heq. split; reflexivity.
  - rewrite Heq. split; reflexivity.
Qed.

(** X7.  A whole cycle opens the position exactly when it starts FLAT,
    has all its inputs, and the z-score of the last row is above the
    entry threshold and below the stop-loss threshold; it closes the
    position exactly when it starts OPEN, has all its inputs, and that
    z-score is below the exit threshold or above the entry threshold.
    In both cases the orders carry the amounts and prices of the
    inputs. *)
Theorem cycle_opens_and_closes (snap : snapshot) (s : strategy_state) :
  let o := on_tick Qsqrt cfg snap s in
  (existsb (sets_flag true) (trace o) = true
   <-> position_open s = false
       /\ exists z a1 a2 p1 p2,
           cycle_inputs Qsqrt cfg snap z a1 a2 p1 p2
           /\ gtb z (of_Q (entry_threshold cfg)) = true
           /\ ltb z (of_Q (sl_threshold cfg)) = true)
  /\ (existsb (sets_flag false) (trace o) = true
      <-> position_open s = true
          /\ exists z a1 a2 p1 p2,
              cycle_inputs Qsqrt cfg snap z a1 a2 p1 p2
              /\ (ltb z (of_Q (exit_threshold cfg)) = true
                  \/ gtb z (of_Q (entry_threshold cfg)) = true))
  /\ (forall z a1 a2 p1 p2,
         cycle_inputs Qsqrt cfg snap z a1 a2 p1 p2 ->
         (existsb (sets_flag true) (trace o) = true ->
          o = mkOutcome (Done tt) (open_state cfg snap a1 a2 p1 p2)
                        (open_trace cfg snap a1 a2 p1 p2))
         /\ (existsb (sets_flag false) (trace o) = true ->
             o = mkOutcome (Done tt) (close_state s)
                           (close_trace cfg s a1 a2 p1 p2))).
Proof.
  cbv zeta.
  destruct (on_tick_inversion Qsqrt cfg snap s)
    as [[z [a1 [a2 [p1 [p2 [Hin Heq]]]]]] | [Hno _]].
  - rewrite Heq.
    assert (Hclose_flags :
              existsb (sets_flag true) (close_trace cfg s a1 a2 p1 p2) = false
              /\ existsb (sets_flag false) (close_trace cfg s a1 a2 p1 p2)
                 = true).
    { unfold close_trace.
      destruct (truthy (long_order_id s)), (truthy (short_order_id s));
        split; reflexivity. }
    destruct Hclose_flags as [Hcf1 Hcf2].
    assert (Huniq : forall z' a1' a2' p1' p2',
               cycle_inputs Qsqrt cfg snap z' a1' a2' p1' p2' ->
               z' = z /\ a1' = a1 /\ a2' = a2 /\ p1' = p1 /\ p2' = p2).
    { intros z' a1' a2' p1' p2' Hin'.
      apply (cycle_inputs_unique Qsqrt cfg snap
               z' z a1' a2' p1' p2' a1 a2 p1 p2 Hin' Hin). }
    destruct (position_open s) eqn:Hpos.
    + destruct (ltb z (of_Q (exit_threshold cfg))
                || gtb z (of_Q (entry_threshold cfg))) eqn:Hleave.
      * rewrite (trade_close cfg snap z a1 a2 p1 p2 s Hleave Hpos).
        cbn [trace]. rewrite Hcf1, Hcf2.
        split; [|split].
        -- split; [discriminate|]. intros [H _]. discriminate H.
        -- split; [intros _|reflexivity]. split; [reflexivity|].
           exists z, a1, a2, p1, p2. split; [exact Hin|].
           now apply orb_true_iff.
        -- intros z' a1' a2' p1' p2' Hin'.
           destruct (Huniq _ _ _ _ _ Hin') as [-> [-> [-> [-> ->]]]].
           split; [discriminate|reflexivity].
      * rewrite (trade_hold_open cfg snap z a1 a2 p1 p2 s Hleave Hpos).
        cbn [trace existsb].
        split; [|split].
        -- split; [discriminate|]. intros [H _]. discriminate H.
        -- split; [discriminate|].
           intros [_ [z' [a1' [a2' [p1' [p2' [Hin' Hz']]]]]]].
           destruct (Huniq _ _ _ _ _ Hin') as [-> _].
           apply orb_true_iff in Hz'. congruence.
        -- intros. split; discriminate.
    + destruct (gtb z (of_Q (entry_threshold cfg))
                && ltb z (of_Q (sl_threshold cfg))) eqn:Henter.
      * rewrite (trade_open cfg snap z a1 a2 p1 p2 s Henter Hpos).
        cbn [trace open_trace existsb sets_flag Bool.eqb orb].
        split; [|split].
        -- split; [intros _|reflexivity]. split; [reflexivity|].
           exists z, a1, a2, p1, p2. split; [exact Hin|].
           now apply andb_true_iff.
        -- split; [discriminate|]. intros [H _]. discriminate H.
        -- intros z' a1' a2' p1' p2' Hin'.
           destruct (Huniq _ _ _ _ _ Hin') as [-> [-> [-> [-> ->]]]].
           split; [reflexivity|discriminate].
      * rewrite (trade_hold_flat cfg snap z a1 a2 p1 p2 s Henter Hpos).
        cbn [trace existsb].
        split; [|split].
        -- split; [discriminate|].
           intros [_ [z' [a1' [a2' [p1' [p2' [Hin' [Hz1 Hz2]]]]]]]].
           destruct (Huniq _ _ _ _ _ Hin') as [-> _].
           rewrite Hz1, Hz2 in Henter. discriminate Henter.
        -- split; [discriminate|]. intros [H _]. discriminate H.
        -- intros. split; discriminate.
  - destruct (stopped_cycle_trace snap s Hno) as [_ Hq].
    rewrite (existsb_filter_nil _ _
               (quiet_trace_has_no (sets_flag true) _ ltac:(log_case) Hq)).
    rewrite (existsb_filter_nil _ _
               (quiet_trace_has_no (sets_flag false) _ ltac:(log_case) Hq)).
    split; [|split].
    + split; [discriminate|].
      intros [_ [z [a1 [a2 [p1 [p2 [Hin _]]]]]]]. exfalso.
      exact (Hno _ _ _ _ _ Hin).
    + split; [discriminate|].
      intros [_ [z [a1 [a2 [p1 [p2 [Hin _]]]]]]]. exfalso.
      exact (Hno _ _ _ _ _ Hin).
    + intros. split; discriminate.
Qed.


(** X9.  Closing orders are submitted only by a cycle that starts OPEN,
    one per leg at most, and that cycle ends FLAT; a cycle that starts
    FLAT submits none; and no cycle submits both opening and closing
    orders. *)
Theorem closing_orders_need_open (snap : snapshot) (s : strategy_state) :
  let o := on_tick Qsqrt cfg snap s in
  (position_open s = false ->
   count_events (is_submit CLOSE) (trace o) = 0%nat)
  /\ (count_events (is_submit CLOSE) (trace o) <= 2)%nat
  /\ ((0 < count_events (is_submit CLOSE) (trace o))%nat ->
      position_open s = true /\ position_open (final o) = false)
  /\ (count_events (is_submit OPEN) (trace o) = 0%nat
      \/ count_events (is_submit CLOSE) (trace o) = 0%nat).
Proof.
  cbv zeta.
  destruct (on_tick_shape Qsqrt cfg snap s)
    as [[Hf Hq] | [[Hs [a1 [a2 [p1 [p2 [_ [Hf Ht]]]]]]]
                  | [Hs [a1 [a2 [p1 [p2 [_ [Hf Ht]]]]]]]]].
  - unfold count_events.
    rewrite (quiet_trace_has_no (is_submit CLOSE) _ ltac:(log_case) Hq).
    cbn. repeat split; intros; lia.
  - rewrite Ht, Hf. cbn. repeat split; intros; lia.
  - rewrite Ht, Hf, Hs. unfold count_events, close_trace.
    destruct (truthy (long_order_id s)), (truthy (short_order_id s));
      cbn; repeat split; intros; try discriminate; lia.
Qed.

(** X10.  Every order a cycle submits is a market order on the configured
    exchange, a buy on the first pair or a sell on the second pair,
    opening or closing; its amount is the notional divided by the
    conversion rate of its leg and its price is the mid price of its leg
    times [Decimal(0.99)].  Leg 1 is never sold and leg 2 never bought,
    closing orders included. *)
Theorem submitted_orders_shape
        (snap : snapshot) (s : strategy_state) (o : order) :
  In (Submit o) (trace (on_tick Qsqrt cfg snap s)) ->
  connector_name o = exchange cfg
  /\ o_type o = MARKET
  /\ (action o = OPEN \/ action o = CLOSE)
  /\ ((side o = BUY /\ trading_pair o = trading_pair_1 cfg
       /\ exists rate,
           get_pair_rate snap (trading_pair_1 cfg) = Some rate
           /\ Dec.div (order_amount_usd cfg) rate = Done (amount o)
           /\ mid_times (get_mid_price snap (trading_pair_1 cfg)) d0_99
              = Done (price o))
      \/ (side o = SELL /\ trading_pair o = trading_pair_2 cfg
          /\ exists rate,
              get_pair_rate snap (trading_pair_2 cfg) = Some rate
              /\ Dec.div (order_amount_usd cfg) rate = Done (amount o)
              /\ mid_times (get_mid_price snap (trading_pair_2 cfg)) d0_99
                 = Done (price o))).
Proof.
  intros Hin.
  destruct (on_tick_inversion Qsqrt cfg snap s)
    as [[z [a1 [a2 [p1 [p2 [Hinp Heq]]]]]] | [Hno _]].
  - rewrite Heq in Hin.
    destruct Hinp as [_ [df [r1 [r2 [_ [_ [Hr1 [Hr2 [Ha1 [Ha2 [Hp1 Hp2]]]]]]]]]]].
    assert (Hleg1 : forall a,
               o = market cfg BUY (trading_pair_1 cfg) a1 p1 a ->
               a = OPEN \/ a = CLOSE ->
               connector_name o = exchange cfg /\ o_type o = MARKET
               /\ (action o = OPEN \/ action o = CLOSE)
               /\ ((side o = BUY /\ trading_pair o = trading_pair_1 cfg
                    /\ exists rate,
                        get_pair_rate snap (trading_pair_1 cfg) = Some rate
                        /\ Dec.div (order_amount_usd cfg) rate
                           = Done (amount o)
                        /\ mid_times
                             (get_mid_price snap (trading_pair_1 cfg)) d0_99
                           = Done (price o))
                   \/ (side o = SELL /\ trading_pair o = trading_pair_2 cfg
                       /\ exists rate,
                           get_pair_rate snap (trading_pair_2 cfg) = Some rate
                           /\ Dec.div (order_amount_usd cfg) rate
                              = Done (amount o)
                           /\ mid_times
                                (get_mid_price snap (trading_pair_2 cfg))
                                d0_99
                              = Done (price o)))).
    { intros a -> Ha. cbn. repeat split; try assumption.
      left. repeat split. now exists r1. }
    assert (Hleg2 : forall a,
               o = market cfg SELL (trading_pair_2 cfg) a2 p2 a ->
               a = OPEN \/ a = CLOSE ->
               connector_name o = exchange cfg /\ o_type o = MARKET
               /\ (action o = OPEN \/ action o = CLOSE)
               /\ ((side o = BUY /\ trading_pair o = trading_pair_1 cfg
                    /\ exists rate,
                        get_pair_rate snap (trading_pair_1 cfg) = Some rate
                        /\ Dec.div (order_amount_usd cfg) rate
                           = Done (amount o)
                        /\ mid_times
                             (get_mid_price snap (trading_pair_1 cfg)) d0_99
                           = Done (price o))
                   \/ (side o = SELL /\ trading_pair o = trading_pair_2 cfg
                       /\ exists rate,
                           get_pair_rate snap (trading_pair_2 cfg) = Some rate
                           /\ Dec.div (order_amount_usd cfg) rate
                              = Done (amount o)
                           /\ mid_times
                                (get_mid_price snap (trading_pair_2 cfg))
                                d0_99
                              = Done (price o)))).
    { intros a -> Ha. cbn. repeat split; try assumption.
      right. repeat split. now exists r2. }
    destruct (trade_cases cfg snap z a1 a2 p1 p2 s)
      as [[_ Ho] | [[_ Ho] | Ho]]; rewrite Ho in Hin; cbn [trace] in Hin.
    + unfold open_trace in Hin. cbn [In] in Hin.
      destruct Hin as [H|[H|[H|[H|[H|[]]]]]]; try discriminate H;
        injection H as H; symmetry in H.
      * apply (Hleg1 OPEN H). now left.
      * apply (Hleg2 OPEN H). now left.
    + unfold close_trace in Hin.
      destruct (truthy (long_order_id s)), (truthy (short_order_id s));
        cbn [app In] in Hin;
        repeat (destruct Hin as [H|Hin];
                [try discriminate H; injection H as H; symmetry in H;
                 first [ apply (Hleg1 CLOSE H); now right
                       | apply (Hleg2 CLOSE H); now right ]|]);
        contradiction.
    + contradiction.
  - destruct (stopped_cycle_trace snap s Hno) as [_ Hq].
    rewrite forallb_forall in Hq. specialize (Hq _ Hin). discriminate Hq.
Qed.

End CycleDecisions.

(** ** Edges of the trade statement *)

(** X11.  Reached with an infinite z-score, of either sign, the trade
    statement never opens a position and closes an open one. *)
Theorem infinite_zscore_closes_only
        (cfg : config) (snap : snapshot) (negative : bool)
        (a1 a2 p1 p2 : decimal) (s : strategy_state) :
  on_tick_trade cfg snap (Inf negative) a1 a2 p1 p2 s
  = if position_open s
    then mkOutcome (Done tt) (close_state s) (close_trace cfg s a1 a2 p1 p2)
    else mkOutcome (Done tt) s [].
Proof.
  destruct (position_open s) eqn:Hpos.
  - apply trade_close; [|exact Hpos]. destruct negative; reflexivity.
  - apply trade_hold_flat; [|exact Hpos]. destruct negative; reflexivity.
Qed.

Lemma decision_of_close (cfg : config) (s : strategy_state)
      (a1 a2 p1 p2 : decimal) :
  decision_of (close_trace cfg s a1 a2 p1 p2) = CLOSE_BOTH.
Proof.
  unfold close_trace.
  destruct (truthy (long_order_id s)), (truthy (short_order_id s));
    reflexivity.
Qed.

Lemma empty_band (cfg : config) (z : float) :
  (sl_threshold cfg <= entry_threshold cfg)%Q ->
  gtb z (of_Q (entry_threshold cfg)) && ltb z (of_Q (sl_threshold cfg))
  = false.
Proof.
  intros Hle. destruct z as [| [|] | q]; try reflexivity.
  destruct (gtb (Fin q) (of_Q (entry_threshold cfg))) eqn:H1;
    [|reflexivity].
  destruct (ltb (Fin q) (of_Q (sl_threshold cfg))) eqn:H2;
    [|reflexivity].
  apply gtb_fin in H1. apply ltb_fin in H2. lra.
Qed.

(** With the exit threshold above the entry threshold, the trade
    statement closes an open position on every z-score that is not
    missing: every number is below the one or above the other. *)
Lemma trade_crossed_closes
        (cfg : config) (snap : snapshot) (z : float)
        (a1 a2 p1 p2 : decimal) (s : strategy_state) :
  (entry_threshold cfg < exit_threshold cfg)%Q ->
  is_nan z = false ->
  position_open s = true ->
  on_tick_trade cfg snap z a1 a2 p1 p2 s
  = mkOutcome (Done tt) (close_state s) (close_trace cfg s a1 a2 p1 p2).
Proof.
  intros Hcross Hz Hopen. apply trade_close; [|exact Hopen].
  destruct z as [| [|] | q]; try reflexivity; [discriminate Hz|].
  destruct (ltb (Fin q) (of_Q (exit_threshold cfg))) eqn:H1;
    [reflexivity|].
  cbn [orb]. apply gtb_fin.
  assert (Hn : ~ (q < exit_threshold cfg)%Q).
  { intros H. apply ltb_fin in H. congruence. }
  lra.
Qed.

(** X15.  When the execution interface hands back no usable reference
    for either opening order, the position is marked OPEN all the same,
    and the cycle that later closes it clears the flag without
    submitting any order. *)
Theorem open_without_references_closes_silently
        (cfg : config) (snap snap' : snapshot) (z z' : float)
        (a1 a2 p1 p2 a1' a2' p1' p2' : decimal) (s : strategy_state) :
  position_open s = false ->
  gtb z (of_Q (entry_threshold cfg)) && ltb z (of_Q (sl_threshold cfg))
  = true ->
  ltb z' (of_Q (exit_threshold cfg)) || gtb z' (of_Q (entry_threshold cfg))
  = true ->
  truthy (place_order snap
            (market cfg BUY (trading_pair_1 cfg) a1 p1 OPEN)) = false ->
  truthy (place_order snap
            (market cfg SELL (trading_pair_2 cfg) a2 p2 OPEN)) = false ->
  let s1 := final (on_tick_trade cfg snap z a1 a2 p1 p2 s) in
  position_open s1 = true
  /\ count_events (is_submit OPEN)
       (trace (on_tick_trade cfg snap z a1 a2 p1 p2 s)) = 2%nat
  /\ on_tick_trade cfg snap' z' a1' a2' p1' p2' s1
     = mkOutcome (Done tt) (close_state s1) [SetPositionOpen false].
Proof.
  intros Hflat Henter Hleave Hl Hs s1. subst s1.
  rewrite (trade_open cfg snap z a1 a2 p1 p2 s Henter Hflat).
  cbn [final trace]. split; [reflexivity|]. split; [reflexivity|].
  rewrite (trade_close cfg snap' z' a1' a2' p1' p2'
             (open_state cfg snap a1 a2 p1 p2) Hleave eq_refl).
  unfold close_trace, open_state. cbn [long_order_id short_order_id].
  rewrite Hl, Hs. reflexivity.
Qed.

Section RunEdges.

Variable Qsqrt : Q -> Q.
Variable cfg : config.

Lemma empty_band_cycle_quiet (snap : snapshot) (s : strategy_state) :
  (sl_threshold cfg <= entry_threshold cfg)%Q ->
  position_open s = false ->
  quiet s (on_tick Qsqrt cfg snap s)
  /\ position_open (final (on_tick Qsqrt cfg snap s)) = false.
Proof.
  intros Hle Hflat.
  assert (Hq : quiet s (on_tick Qsqrt cfg snap s)).
  { destruct (on_tick_cases Qsqrt cfg snap s)
      as [Hq | [z [a1 [a2 [p1 [p2 Heq]]]]]]; [exact Hq|].
    rewrite Heq.
    rewrite (trade_hold_flat cfg snap z a1 a2 p1 p2 s
               (empty_band cfg z Hle) Hflat).
    split; reflexivity. }
  split; [exact Hq|]. destruct Hq as [-> _]. exact Hflat.
Qed.

(** X13.  With a stop-loss threshold not above the entry threshold the
    entry band is empty: along every run that starts FLAT no cycle
    submits an order or writes a field, and the state stays FLAT. *)
Theorem empty_band_never_trades
        (snaps : list snapshot) (s : strategy_state) :
  (sl_threshold cfg <= entry_threshold cfg)%Q ->
  position_open s = false ->
  fst (run Qsqrt cfg snaps s) = s
  /\ Forall (fun tr => forallb is_log tr = true)
            (snd (run Qsqrt cfg snaps s)).
Proof.
  intros Hle. revert s.
  induction snaps as [|snap rest IH]; intros s Hflat; cbn [run].
  - split; [reflexivity|constructor].
  - destruct (empty_band_cycle_quiet snap s Hle Hflat) as [[Hf Hq] _].
    specialize (IH (final (on_tick Qsqrt cfg snap s))).
    rewrite Hf in IH |- *. specialize (IH Hflat).
    destruct (run Qsqrt cfg rest s) as [s' traces].
    cbn [fst snd] in *. destruct IH as [-> Hall].
    split; [reflexivity|]. constructor; [exact Hq|exact Hall].
Qed.

(** X16.  The two order references are written by opening cycles only:
    any other cycle, a closing one included, leaves them as they were,
    so the references of a closed position stay in the state until the
    next opening. *)
Theorem references_change_only_on_open
        (snap : snapshot) (s : strategy_state) :
  let o := on_tick Qsqrt cfg snap s in
  (existsb (sets_flag true) (trace o) = false ->
   long_order_id (final o) = long_order_id s
   /\ short_order_id (final o) = short_order_id s)
  /\ (existsb (sets_flag true) (trace o) = true ->
      exists o1 o2,
        In (Submit o1) (trace o) /\ In (Submit o2) (trace o)
        /\ long_order_id (final o) = place_order snap o1
        /\ short_order_id (final o) = place_order snap o2).
Proof.
  cbv zeta.
  destruct (on_tick_shape Qsqrt cfg snap s)
    as [[Hf Hq] | [[Hs [a1 [a2 [p1 [p2 [_ [Hf Ht]]]]]]]
                  | [Hs [a1 [a2 [p1 [p2 [_ [Hf Ht]]]]]]]]].
  - rewrite Hf.
    rewrite (existsb_filter_nil _ _
               (quiet_trace_has_no (sets_flag true) _ ltac:(log_case) Hq)).
    split; [auto|discriminate].
  - rewrite Hf, Ht. split; [discriminate|]. intros _.
    do 2 eexists. unfold open_trace, open_state.
    cbn [In long_order_id short_order_id].
    split; [left; reflexivity|].
    split; [right; right; left; reflexivity|]. split; reflexivity.
  - rewrite Hf, Ht.
    destruct (close_trace_counts cfg s a1 a2 p1 p2) as [_ [Hno _]].
    rewrite (existsb_filter_nil _ _ Hno).
    split; [intros _; split; reflexivity|discriminate].
Qed.

End RunEdges.

(** ** The status report *)

Lemma length_tail {A : Type} (n : nat) (l : list A) :
  length (tail n l) = Nat.min n (length l).
Proof. unfold tail. rewrite length_skipn. lia. Qed.

Lemma nth_error_tail {A : Type} (n : nat) (l : list A) (k : nat) :
  nth_error (tail n l) k = nth_error l (length l - n + k).
Proof. unfold tail. apply nth_error_skipn. Qed.

Lemma tail_snoc {A : Type} (n : nat) (l : list A) (x : A) :
  (0 < n)%nat -> tail n (l ++ [x]) = tail (n - 1) l ++ [x].
Proof.
  intros Hn. unfold tail. rewrite length_app. cbn [length].
  rewrite skipn_app.
  replace (length l + 1 - n)%nat with (length l - (n - 1))%nat by lia.
  replace (length l - (n - 1) - length l)%nat with 0%nat by lia.
  reflexivity.
Qed.

Lemma iloc_last_snoc {A : Type} (col : list A) (x : A) :
  iloc_last col = Done x -> exists pre, col = pre ++ [x].
Proof.
  unfold iloc_last. destruct (rev col) as [|y l] eqn:Hrev; [discriminate|].
  intros [= ->]. exists (rev l).
  rewrite <- (rev_involutive col), Hrev. reflexivity.
Qed.

Section StatusFacts.

Variable Qsqrt : Q -> Q.
Variable show_timestamp : Z -> string.
Variable fixed4 : float -> string.
Variable cfg : config.

(** X17.  When the feeds are ready and the frame is computed, the status
    lines end with the header, one line per row of the last ten rows of
    the frame (all of them when there are fewer), in the order of the
    frame, and the rule; with [spread_length] at least ten there are
    exactly ten row lines.  Nothing is logged and the state is
    untouched. *)
Theorem status_shows_last_rows
        (snap : snapshot) (balance_text : string) (s : strategy_state)
        (df : list row) :
  all_candles_ready snap = true ->
  calculate_spread_and_zscore Qsqrt cfg
    (candles_df (candles_1 snap)) (candles_df (candles_2 snap)) = Some df ->
  exists head shown,
    status_lines Qsqrt show_timestamp fixed4 cfg snap balance_text s
    = mkOutcome
        (Done (head ++ status_header cfg
                 :: map (status_row show_timestamp fixed4) shown
                 ++ [status_rule]))
        s []
    /\ format_status Qsqrt show_timestamp fixed4 cfg snap true balance_text s
       = mkOutcome
           (Done (String.concat nl
                    (head ++ status_header cfg
                       :: map (status_row show_timestamp fixed4) shown
                       ++ [status_rule])))
           s []
    /\ length shown = Nat.min 10 (length df)
    /\ (forall k, (k < length shown)%nat ->
                  nth_error shown k
                  = nth_error df (length df - length shown + k))
    /\ ((10 <= spread_length cfg)%nat -> length shown = 10%nat).
Proof.
  intros Hready Hdf.
  exists ([""%string; "  Balances:"%string]
          ++ map (fun line => ("    " ++ line)%string)
                 (split newline balance_text)
          ++ [market_banner]),
         (tail 10 df).
  assert (Hlines :
            status_lines Qsqrt show_timestamp fixed4 cfg snap balance_text s
            = mkOutcome
                (Done (([""%string; "  Balances:"%string]
                        ++ map (fun line => ("    " ++ line)%string)
                               (split newline balance_text)
                        ++ [market_banner])
                       ++ status_header cfg
                       :: map (status_row show_timestamp fixed4) (tail 10 df)
                       ++ [status_rule]))
                s []).
  { unfold status_lines. rewrite Hready, Hdf. unfold ret.
    f_equal. f_equal. rewrite <- !app_assoc. reflexivity. }
  split; [exact Hlines|]. split; [|split; [|split]].
  - unfold format_status. cbn [negb]. unfold bind. rewrite Hlines.
    reflexivity.
  - apply length_tail.
  - intros k Hk. rewrite nth_error_tail, length_tail.
    f_equal. lia.
  - intros Hten. rewrite length_tail.
    unfold calculate_spread_and_zscore in Hdf.
    pose proof (spread_zscore_length Qsqrt cfg _ _ Hdf) as Hlen.
    destruct (le_lt_dec (spread_length cfg)
                (length (merge (candles_df (candles_1 snap))
                               (candles_df (candles_2 snap)))))
      as [Hle|Hlt].
    + lia.
    + apply (spread_zscore_None_iff Qsqrt cfg) in Hlt. congruence.
Qed.

(** X18.  On one snapshot, the last row line of the status report is the
    row whose z-score the cycle trades on. *)
Theorem status_last_row_is_the_signal
        (snap : snapshot) (balance_text : string) (s s' : strategy_state)
        (z : float) (a1 a2 p1 p2 : decimal) :
  cycle_inputs Qsqrt cfg snap z a1 a2 p1 p2 ->
  exists before r,
    res (status_lines Qsqrt show_timestamp fixed4 cfg snap balance_text s')
    = Done (before ++ [status_row show_timestamp fixed4 r; status_rule])
    /\ z_score r = z
    /\ on_tick Qsqrt cfg snap s = on_tick_trade cfg snap z a1 a2 p1 p2 s.
Proof.
  intros Hin.
  pose proof Hin as [Hready [df [r1 [r2 [Hdf [Hz [Hr1 [Hr2
                       [Ha1 [Ha2 [Hp1 Hp2]]]]]]]]]]].
  destruct (iloc_last_snoc _ _ Hz) as [zs Hzs].
  assert (Hsplit : exists pre r, df = pre ++ [r] /\ z_score r = z).
  { destruct (rev df) as [|r l] eqn:Hrev.
    - apply (f_equal (@rev row)) in Hrev. rewrite rev_involutive in Hrev.
      subst df. destruct zs; discriminate Hzs.
    - exists (rev l), r.
      assert (Hdf' : df = rev l ++ [r]).
      { rewrite <- (rev_involutive df), Hrev. reflexivity. }
      split; [exact Hdf'|].
      rewrite Hdf', map_app in Hzs. cbn [map] in Hzs.
      apply app_inj_tail in Hzs. tauto. }
  destruct Hsplit as [pre [r [Hdfr Hzr]]].
  exists ([""%string; "  Balances:"%string]
          ++ map (fun line => ("    " ++ line)%string)
                 (split newline balance_text)
          ++ [market_banner]
          ++ status_header cfg
             :: map (status_row show_timestamp fixed4) (tail 9 pre)),
         r.
  split; [|split; [exact Hzr|]].
  - unfold status_lines. rewrite Hready, Hdf. unfold ret. cbn [res].
    f_equal. rewrite Hdfr, (tail_snoc 10 pre r) by lia.
    cbn [Nat.sub]. rewrite map_app. cbn [map].
    rewrite <- !app_assoc. cbn [app]. rewrite <- !app_assoc. reflexivity.
  - apply (on_tick_reaches_trade Qsqrt cfg snap s df z r1 r2);
      assumption.
Qed.

End StatusFacts.

(** ** Concrete runs of the further properties *)

Lemma rising_timestamps_unique :
  NoDup (map c_timestamp (candles_df (candles_1 rising_snapshot)))
  /\ NoDup (map c_timestamp (candles_df (candles_2 rising_snapshot))).
Proof.
  split; cbn; repeat constructor; cbn; intuition discriminate.
Qed.


(** A missing close in the middle row: no z-score at the last row. *)
Lemma gap_in_window_witness :
  exists rows r,
    spread_zscore Qsqrt_floor small_config gap_frame = Some rows
    /\ nth_error rows 2 = Some r
    /\ z_score r = NaN.
Proof.
  do 2 eexists.
  split; [vm_compute; reflexivity|].
  split; [vm_compute; reflexivity|].
  eapply (gap_in_window_no_signal Qsqrt_floor small_config gap_frame
            _ 2%nat 1%nat _ NaN).
  - vm_compute; reflexivity.
  - vm_compute; reflexivity.
  - vm_compute; reflexivity.
  - reflexivity.
  - cbn. lia.
Defined.

(** A zero rate for leg 1: the cycle raises and leaves nothing. *)
Lemma exception_leaves_no_trace_witness :
  res (on_tick Qsqrt_floor small_config zero_rate_snapshot initial_state)
  = Raised DivisionByZero
  /\ final (on_tick Qsqrt_floor small_config zero_rate_snapshot initial_state)
     = initial_state.
Proof.
  assert (H : res (on_tick Qsqrt_floor small_config zero_rate_snapshot
                     initial_state) = Raised DivisionByZero)
    by (vm_compute; reflexivity).
  split; [exact H|].
  exact (proj1 (exception_leaves_no_trace Qsqrt_floor small_config
                  zero_rate_snapshot initial_state DivisionByZero H)).
Defined.


(** The opening cycle on the rising frames: its first order. *)
Lemma submitted_orders_shape_witness :
  exists o,
    In (Submit o)
       (trace (on_tick Qsqrt_floor small_config rising_snapshot
                 initial_state))
    /\ connector_name o = exchange small_config
    /\ o_type o = MARKET.
Proof.
  eexists.
  assert (Hin : In (Submit _)
                   (trace (on_tick Qsqrt_floor small_config rising_snapshot
                             initial_state)))
    by (vm_compute; left; reflexivity).
  split; [exact Hin|].
  destruct (submitted_orders_shape Qsqrt_floor small_config rising_snapshot
              initial_state _ Hin) as [H1 [H2 _]].
  split; [exact H1 | exact H2].
Defined.

(** [entry = sl = 3]: the rising frames do not open. *)
Lemma empty_band_never_trades_witness :
  fst (run Qsqrt_floor empty_band_config
         [rising_snapshot; falling_snapshot] initial_state)
  = initial_state.
Proof.
  apply (empty_band_never_trades Qsqrt_floor empty_band_config
           [rising_snapshot; falling_snapshot] initial_state).
  - unfold Qle. cbn. lia.
  - reflexivity.
Defined.

(** No reference from the interface: OPEN, then a close with no order. *)
Lemma open_without_references_witness :
  trace (on_tick_trade default_config deaf_snapshot (Fin (- (1 # 2)))
           (DFin 1) (DFin 1) (DFin 1) (DFin 1)
           (final (on_tick_trade default_config deaf_snapshot (Fin (3 # 2))
                     (DFin 1) (DFin 1) (DFin 1) (DFin 1) initial_state)))
  = [SetPositionOpen false].
Proof.
  destruct (open_without_references_closes_silently
              default_config deaf_snapshot deaf_snapshot
              (Fin (3 # 2)) (Fin (- (1 # 2)))
              (DFin 1) (DFin 1) (DFin 1) (DFin 1)
              (DFin 1) (DFin 1) (DFin 1) (DFin 1) initial_state
              eq_refl eq_refl eq_refl eq_refl eq_refl) as [_ [_ H]].
  rewrite H. reflexivity.
Defined.

Lemma rising_cycle_inputs :
  exists z a1 a2 p1 p2,
    cycle_inputs Qsqrt_floor small_config rising_snapshot z a1 a2 p1 p2.
Proof.
  do 5 eexists. split; [reflexivity|]. do 3 eexists.
  split; [vm_compute; reflexivity|].
  split; [vm_compute; reflexivity|].
  split; [reflexivity|]. split; [reflexivity|].
  split; [vm_compute; reflexivity|].
  split; [vm_compute; reflexivity|].
  split; vm_compute; reflexivity.
Qed.

(** The report on the rising frames: three row lines. *)
Lemma status_shows_last_rows_witness :
  exists lines,
    res (status_lines Qsqrt_floor (fun _ => ""%string) (fun _ => ""%string)
           small_config rising_snapshot "" initial_state)
    = Done lines.
Proof.
  destruct rising_cycle_inputs
    as [z [a1 [a2 [p1 [p2 [Hready [df [r1 [r2 [Hdf _]]]]]]]]]].
  destruct (status_shows_last_rows Qsqrt_floor
              (fun _ => ""%string) (fun _ => ""%string)
              small_config rising_snapshot "" initial_state df Hready Hdf)
    as [head [shown [H _]]].
  eexists. rewrite H. reflexivity.
Defined.

(** The report and the cycle on the rising frames agree on the z-score. *)
Lemma status_last_row_witness :
  exists z a1 a2 p1 p2,
    on_tick Qsqrt_floor small_config rising_snapshot initial_state
    = on_tick_trade small_config rising_snapshot z a1 a2 p1 p2 initial_state.
Proof.
  destruct rising_cycle_inputs as [z [a1 [a2 [p1 [p2 Hin]]]]].
  exists z, a1, a2, p1, p2.
  destruct (status_last_row_is_the_signal Qsqrt_floor
              (fun _ => ""%string) (fun _ => ""%string)
              small_config rising_snapshot "" initial_state initial_state
              z a1 a2 p1 p2 Hin) as [before [r [_ [_ H]]]].
  exact H.
Defined.

(** ** History needed by the engine *)

Lemma merge_length_le (df1 df2 : list candle) :
  NoDup (map c_timestamp df1) -> NoDup (map c_timestamp df2) ->
  (length (merge df1 df2) <= length df1)%nat
  /\ (length (merge df1 df2) <= length df2)%nat.
Proof.
  intros Hnd1 Hnd2.
  pose proof (merge_timestamps df1 df2 Hnd2) as Hts.
  assert (Hnd : NoDup (map m_timestamp (merge df1 df2))).
  { rewrite Hts. now apply NoDup_filter. }
  split.
  - rewrite <- (length_map m_timestamp), <- (length_map c_timestamp df1).
    apply NoDup_incl_length; [exact Hnd|].
    intros t Ht. rewrite Hts in Ht. apply filter_In in Ht. tauto.
  - rewrite <- (length_map m_timestamp), <- (length_map c_timestamp df2).
    apply NoDup_incl_length; [exact Hnd|].
    intros t Ht. rewrite Hts in Ht. apply filter_In in Ht.
    destruct Ht as [_ Ht]. apply existsb_exists in Ht.
    destruct Ht as [c [Hc Heq]]. apply Z.eqb_eq in Heq. subst t.
    now apply in_map.
Qed.

(** X19.  With one candle per timestamp in each feed, the computation
    returns nothing as long as either feed holds fewer than
    [spread_length] candles, and the cycle then only logs the error (no
    order, no state change) once both feeds are ready. *)
Theorem short_feed_not_ready
        (Qsqrt : Q -> Q) (cfg : config) (snap : snapshot)
        (s : strategy_state) :
  NoDup (map c_timestamp (candles_df (candles_1 snap))) ->
  NoDup (map c_timestamp (candles_df (candles_2 snap))) ->
  (Nat.min (length (candles_df (candles_1 snap)))
           (length (candles_df (candles_2 snap)))
   < spread_length cfg)%nat ->
  calculate_spread_and_zscore Qsqrt cfg
    (candles_df (candles_1 snap)) (candles_df (candles_2 snap)) = None
  /\ res (on_tick Qsqrt cfg snap s) = Done tt
  /\ final (on_tick Qsqrt cfg snap s) = s
  /\ forallb is_log (trace (on_tick Qsqrt cfg snap s)) = true.
Proof.
  intros Hnd1 Hnd2 Hshort.
  destruct (merge_length_le _ _ Hnd1 Hnd2) as [Hl1 Hl2].
  assert (Hnone : calculate_spread_and_zscore Qsqrt cfg
                    (candles_df (candles_1 snap))
                    (candles_df (candles_2 snap)) = None).
  { unfold calculate_spread_and_zscore.
    apply spread_zscore_None_iff. lia. }
  split; [exact Hnone|].
  unfold on_tick. rewrite Hnone.
  destruct (all_candles_ready snap); repeat split.
Qed.

(** Three candles per leg against the source's 250. *)
Lemma short_feed_not_ready_witness :
  calculate_spread_and_zscore Qsqrt_floor default_config
    (candles_df (candles_1 rising_snapshot))
    (candles_df (candles_2 rising_snapshot)) = None.
Proof.
  apply (short_feed_not_ready Qsqrt_floor default_config rising_snapshot
           initial_state
           (proj1 rising_timestamps_unique)
           (proj2 rising_timestamps_unique)).
  cbn. lia.
Defined.

(* ================================================================== *)
(** * Whole cycles and the trade decision *)

Section WholeCycles.

Variable Qsqrt : Q -> Q.
Variable cfg : config.

Lemma cycle_is_trade (snap : snapshot) (s : strategy_state)
      (z : float) (a1 a2 p1 p2 : decimal) :
  cycle_inputs Qsqrt cfg snap z a1 a2 p1 p2 ->
  on_tick Qsqrt cfg snap s = on_tick_trade cfg snap z a1 a2 p1 p2 s.
Proof.
  intros [Hready [df [r1 [r2 [Hdf [Hz [Hr1 [Hr2 [Ha1 [Ha2 [Hp1 Hp2]]]]]]]]]]].
  apply (on_tick_reaches_trade Qsqrt cfg snap s df z r1 r2); assumption.
Qed.

(** C1 (as the code behaves).  In a cycle that starts FLAT and has all
    its inputs (ready feeds, a frame with a last z-score, both conversion
    rates, both amounts and both prices), with a z-score that is a real
    number [q], the opening decision (buy-to-open leg 1, sell-to-open
    leg 2, flag set) is taken if and only if
    [entry_threshold < q < sl_threshold]; both comparisons are strict, so
    [q] equal to either threshold does not open, and when it is not taken
    nothing happens.  A cycle that lacks an input opens nothing, whatever
    its z-score: it keeps its state and at most logs. *)
Theorem C1_cycle_opens_iff_in_band (snap : snapshot) (s : strategy_state) :
  position_open s = false ->
  let o := on_tick Qsqrt cfg snap s in
  (forall q a1 a2 p1 p2,
      cycle_inputs Qsqrt cfg snap (Fin q) a1 a2 p1 p2 ->
      let opened := trace o = open_trace cfg snap a1 a2 p1 p2
                    /\ final o = open_state cfg snap a1 a2 p1 p2 in
      (opened <-> (entry_threshold cfg < q /\ q < sl_threshold cfg)%Q)
      /\ (~ opened -> trace o = [] /\ final o = s)
      /\ (q == entry_threshold cfg -> ~ opened)%Q
      /\ (q == sl_threshold cfg -> ~ opened)%Q)
  /\ ((forall z a1 a2 p1 p2, ~ cycle_inputs Qsqrt cfg snap z a1 a2 p1 p2) ->
      final o = s /\ forallb is_log (trace o) = true).
Proof.
  intros Hflat o. subst o. split.
  - intros q a1 a2 p1 p2 Hin. rewrite (cycle_is_trade snap s _ _ _ _ _ Hin).
    exact (trade_opens_iff_in_band cfg snap q a1 a2 p1 p2 s Hflat).
  - intros Hno. now apply stopped_cycle_trace.
Qed.

(** C2 (as the code behaves).  In a cycle that starts OPEN and has all
    its inputs, with a z-score that is a real number [q], the closing
    decision (the guarded close legs, flag cleared, CLOSE_BOTH) is taken
    if and only if [q < exit_threshold] or [q > entry_threshold];
    otherwise the state is unchanged and nothing is emitted (HOLD).  A
    cycle that lacks an input closes nothing, whatever its z-score. *)
Theorem C2_cycle_closes_iff_outside (snap : snapshot) (s : strategy_state) :
  position_open s = true ->
  let o := on_tick Qsqrt cfg snap s in
  (forall q a1 a2 p1 p2,
      cycle_inputs Qsqrt cfg snap (Fin q) a1 a2 p1 p2 ->
      let closed := trace o = close_trace cfg s a1 a2 p1 p2
                    /\ final o = close_state s
                    /\ decision_of (trace o) = CLOSE_BOTH in
      (closed <-> (q < exit_threshold cfg \/ entry_threshold cfg < q)%Q)
      /\ (~ closed ->
          trace o = [] /\ final o = s /\ decision_of (trace o) = HOLD))
  /\ ((forall z a1 a2 p1 p2, ~ cycle_inputs Qsqrt cfg snap z a1 a2 p1 p2) ->
      final o = s /\ forallb is_log (trace o) = true).
Proof.
  intros Hopen o. subst o. split.
  - intros q a1 a2 p1 p2 Hin. rewrite (cycle_is_trade snap s _ _ _ _ _ Hin).
    exact (trade_closes_iff_outside cfg snap q a1 a2 p1 p2 s Hopen).
  - intros Hno. now apply stopped_cycle_trace.
Qed.

(** X14.  With the exit threshold above the entry threshold, an open
    position is closed by the first cycle that has all its inputs and a
    z-score that is not missing, whatever its value: every number is
    below the one threshold or above the other. *)
Theorem crossed_thresholds_always_close
        (snap : snapshot) (s : strategy_state)
        (z : float) (a1 a2 p1 p2 : decimal) :
  (entry_threshold cfg < exit_threshold cfg)%Q ->
  cycle_inputs Qsqrt cfg snap z a1 a2 p1 p2 ->
  is_nan z = false ->
  position_open s = true ->
  on_tick Qsqrt cfg snap s
  = mkOutcome (Done tt) (close_state s) (close_trace cfg s a1 a2 p1 p2).
Proof.
  intros Hcross Hin Hz Hopen. rewrite (cycle_is_trade snap s _ _ _ _ _ Hin).
  now apply trade_crossed_closes.
Qed.

(** X12.  While every cycle has all its inputs and a real z-score
    strictly between the entry and the stop-loss thresholds (not
    necessarily the same one), the position flaps: each cycle that
    starts FLAT opens and each cycle that starts OPEN closes, one after
    the other along the run. *)
Theorem in_band_zscore_flaps
        (snaps : list snapshot) (s : strategy_state) :
  Forall (in_band_cycle Qsqrt cfg) snaps ->
  map decision_of (snd (run Qsqrt cfg snaps s))
  = flap (position_open s) (length snaps)
  /\ position_open (fst (run Qsqrt cfg snaps s))
     = xorb (position_open s) (Nat.odd (length snaps)).
Proof.
  intros Hall. revert s.
  induction Hall as [|snap rest [q [a1 [a2 [p1 [p2 [Hin [Hlo Hhi]]]]]]] _ IH];
    intros s.
  - cbn. now rewrite xorb_false_r.
  - cbn [run length flap].
    assert (Hgt : gtb (Fin q) (of_Q (entry_threshold cfg)) = true)
      by now apply gtb_fin.
    assert (Hlt : ltb (Fin q) (of_Q (sl_threshold cfg)) = true)
      by now apply ltb_fin.
    specialize (IH (final (on_tick Qsqrt cfg snap s))).
    destruct (run Qsqrt cfg rest (final (on_tick Qsqrt cfg snap s)))
      as [s' traces].
    cbn [fst snd map] in *. destruct IH as [IH1 IH2].
    rewrite Nat.odd_succ, <- Nat.negb_odd.
    rewrite (cycle_is_trade snap s _ _ _ _ _ Hin) in *.
    destruct (position_open s) eqn:Hpos.
    + rewrite (trade_close cfg snap (Fin q) a1 a2 p1 p2 s) in *
        by (try assumption; rewrite Hgt; apply orb_true_r).
      cbn [trace final close_state position_open] in *.
      rewrite decision_of_close, IH1, IH2. split; [reflexivity|].
      destruct (Nat.odd (length rest)); reflexivity.
    + rewrite (trade_open cfg snap (Fin q) a1 a2 p1 p2 s) in *
        by (try assumption; now rewrite Hgt, Hlt).
      cbn [trace final open_state position_open] in *.
      rewrite IH1, IH2. split; [reflexivity|].
      destruct (Nat.odd (length rest)); reflexivity.
Qed.

End WholeCycles.

(* ================================================================== *)
(** * The unguarded division *)

Lemma div64_by_nan (x y : PrimFloat.float) :
  B64.nan64 y = true -> B64.nan64 (PrimFloat.div x y) = true.
Proof.
  unfold B64.nan64. rewrite FloatAxioms.div_spec.
  destruct (FloatOps.Prim2SF y); try discriminate. intros _.
  destruct (FloatOps.Prim2SF x); reflexivity.
Qed.

Lemma div64_by_zero (x y : PrimFloat.float) :
  B64.zero64 y = true ->
  B64.finite64 (PrimFloat.div x y) = false
  /\ (B64.nan64 (PrimFloat.div x y) = true
      <-> B64.nan64 x = true \/ B64.zero64 x = true)
  /\ (B64.infinite64 (PrimFloat.div x y) = true
      <-> B64.nan64 x = false /\ B64.zero64 x = false).
Proof.
  unfold B64.finite64, B64.nan64, B64.zero64, B64.infinite64.
  rewrite FloatAxioms.div_spec.
  destruct (FloatOps.Prim2SF y); try discriminate. intros _.
  destruct (FloatOps.Prim2SF x); cbn;
    (split; [reflexivity|]); split; split; intros H;
    try discriminate H; try tauto; try (destruct H; discriminate); auto.
Qed.

Lemma spread_zscore64_row
      (rolling_mean rolling_std : nat -> list PrimFloat.float
                                  -> list PrimFloat.float)
      (hedge_ratio : PrimFloat.float) (zscore_length spread_length : nat)
      (df : list B64.merged_row64) (rows : list B64.row64)
      (i : nat) (r : B64.row64) (m sd : PrimFloat.float) :
  B64.spread_zscore64 rolling_mean rolling_std hedge_ratio
    zscore_length spread_length df = Some rows ->
  nth_error rows i = Some r ->
  nth_error (rolling_mean zscore_length (B64.spread_col64 hedge_ratio df)) i
  = Some m ->
  nth_error (rolling_std zscore_length (B64.spread_col64 hedge_ratio df)) i
  = Some sd ->
  exists a,
    nth_error df i = Some a
    /\ B64.spread64 r
       = PrimFloat.sub (B64.m_close_1_64 a)
           (PrimFloat.mul (B64.m_close_2_64 a) hedge_ratio)
    /\ B64.z_score64 r
       = PrimFloat.div (PrimFloat.sub (B64.spread64 r) m) sd.
Proof.
  unfold B64.spread_zscore64.
  destruct (spread_length <=? length df)%nat; [|discriminate].
  intros [= <-] Hr Hm Hsd.
  rewrite !nth_error_zip_with in Hr. unfold B64.z_score_col64 in Hr.
  rewrite !nth_error_zip_with, Hm, Hsd in Hr.
  unfold B64.spread_col64 in Hr. rewrite nth_error_map in Hr.
  destruct (nth_error df i) as [a|]; [|discriminate Hr].
  cbn in Hr. injection Hr as <-. exists a. cbn. auto.
Qed.

(** C6 (as the code behaves).  At every row of a returned frame the
    z-score is the binary64 quotient
    [(spread - rolling_mean) / rolling_std], with no guard, whatever the
    rolling statistics are.  When the rolling standard deviation is
    missing, so is the z-score.  When it is zero, the z-score is never a
    real number: it is missing when the numerator is zero or missing, and
    an infinity otherwise. *)
Theorem C6_unguarded_division
        (rolling_mean rolling_std : nat -> list PrimFloat.float
                                    -> list PrimFloat.float)
        (hedge_ratio : PrimFloat.float) (zscore_length spread_length : nat)
        (df : list B64.merged_row64) (rows : list B64.row64)
        (i : nat) (r : B64.row64) (m sd : PrimFloat.float) :
  B64.spread_zscore64 rolling_mean rolling_std hedge_ratio
    zscore_length spread_length df = Some rows ->
  nth_error rows i = Some r ->
  nth_error (rolling_mean zscore_length (B64.spread_col64 hedge_ratio df)) i
  = Some m ->
  nth_error (rolling_std zscore_length (B64.spread_col64 hedge_ratio df)) i
  = Some sd ->
  let numerator := PrimFloat.sub (B64.spread64 r) m in
  B64.z_score64 r = PrimFloat.div numerator sd
  /\ (B64.nan64 sd = true -> B64.nan64 (B64.z_score64 r) = true)
  /\ (B64.zero64 sd = true ->
      B64.finite64 (B64.z_score64 r) = false
      /\ (B64.nan64 (B64.z_score64 r) = true
          <-> B64.nan64 numerator = true \/ B64.zero64 numerator = true)
      /\ (B64.infinite64 (B64.z_score64 r) = true
          <-> B64.nan64 numerator = false /\ B64.zero64 numerator = false)).
Proof.
  intros Hrows Hr Hm Hsd numerator. subst numerator.
  destruct (spread_zscore64_row _ _ _ _ _ _ _ _ _ _ _ Hrows Hr Hm Hsd)
    as [a [_ [_ Hz]]].
  split; [exact Hz|]. rewrite Hz. split.
  - apply div64_by_nan.
  - apply div64_by_zero.
Qed.

(** C6 as stated fails: on closes 0, 1e-200, 2e-200 against a flat leg 2,
    the sample variance of the last window underflows to zero; the
    rolling standard deviation is zero and the z-score is an infinity,
    not a missing value. *)
Lemma C6_counterexample :
  exists rows r sd,
    B64.spread_zscore64 (B64.rolling64 B64.mean64) (B64.rolling64 B64.std64)
      B64.hedge_0_3 3 3 B64.underflow_frame = Some rows
    /\ nth_error rows 2 = Some r
    /\ nth_error (B64.rolling64 B64.std64 3
                    (B64.spread_col64 B64.hedge_0_3 B64.underflow_frame)) 2
       = Some sd
    /\ B64.infinite64 (B64.z_score64 r) = true
    /\ ~ (B64.zero64 sd = true -> B64.nan64 (B64.z_score64 r) = true).
Proof.
  do 3 eexists.
  split; [vm_compute; reflexivity|].
  split; [vm_compute; reflexivity|].
  split; [vm_compute; reflexivity|].
  split; [vm_compute; reflexivity|].
  intros H. assert (Hz : B64.zero64 PrimFloat.zero = true)
    by (vm_compute; reflexivity).
  specialize (H Hz). vm_compute in H. discriminate H.
Qed.

(** Both legs level: the deviation is zero, the numerator too, and the
    z-score is missing. *)
Lemma C6_witness :
  exists rows r,
    B64.spread_zscore64 (B64.rolling64 B64.mean64) (B64.rolling64 B64.std64)
      B64.hedge_0_3 3 3 B64.level_frame = Some rows
    /\ nth_error rows 2 = Some r
    /\ B64.finite64 (B64.z_score64 r) = false.
Proof.
  do 2 eexists.
  split; [vm_compute; reflexivity|].
  split; [vm_compute; reflexivity|].
  refine (proj1 (proj2 (proj2
            (C6_unguarded_division
               (B64.rolling64 B64.mean64) (B64.rolling64 B64.std64)
               B64.hedge_0_3 3 3 B64.level_frame _ 2%nat _ _ _
               _ _ _ _)) _)).
  - vm_compute; reflexivity.
  - vm_compute; reflexivity.
  - vm_compute; reflexivity.
  - vm_compute; reflexivity.
  - vm_compute; reflexivity.
Defined.

(* ================================================================== *)
(** * Concrete whole cycles *)

(** The rising frames under the small configuration: all inputs, and a
    last z-score (about 1.15) inside the entry band. *)
Lemma rising_in_band : in_band_cycle Qsqrt_floor small_config rising_snapshot.
Proof.
  unfold in_band_cycle, cycle_inputs. do 5 eexists. split.
  - split; [reflexivity|]. do 3 eexists.
    split; [vm_compute; reflexivity|].
    split; [vm_compute; reflexivity|].
    split; [reflexivity|]. split; [reflexivity|].
    split; [vm_compute; reflexivity|].
    split; [vm_compute; reflexivity|].
    split; vm_compute; reflexivity.
  - split; vm_compute; reflexivity.
Qed.

(** The falling frames: all inputs, and a last z-score (-1) below the
    exit threshold. *)
Lemma falling_below_exit :
  exists q a1 a2 p1 p2,
    cycle_inputs Qsqrt_floor small_config falling_snapshot (Fin q)
      a1 a2 p1 p2
    /\ (q < exit_threshold small_config)%Q.
Proof.
  unfold cycle_inputs. do 5 eexists. split.
  - split; [reflexivity|]. do 3 eexists.
    split; [vm_compute; reflexivity|].
    split; [vm_compute; reflexivity|].
    split; [reflexivity|]. split; [reflexivity|].
    split; [vm_compute; reflexivity|].
    split; [vm_compute; reflexivity|].
    split; vm_compute; reflexivity.
  - vm_compute; reflexivity.
Qed.

(** A FLAT cycle on the rising frames opens. *)
Lemma C1_witness :
  position_open initial_state = false
  /\ exists a1 a2 p1 p2,
      trace (on_tick Qsqrt_floor small_config rising_snapshot initial_state)
      = open_trace small_config rising_snapshot a1 a2 p1 p2.
Proof.
  split; [reflexivity|].
  destruct rising_in_band as [q [a1 [a2 [p1 [p2 [Hin Hband]]]]]].
  exists a1, a2, p1, p2.
  destruct (C1_cycle_opens_iff_in_band Qsqrt_floor small_config
              rising_snapshot initial_state eq_refl) as [H _].
  destruct (H q a1 a2 p1 p2 Hin) as [Hiff _].
  apply Hiff. exact Hband.
Defined.

(** C1 as stated fails: the z-score of the rising frames is inside the
    band and the state is FLAT, but with no conversion rate the cycle
    warns and returns: nothing is opened. *)
Lemma C1_counterexample :
  exists df q,
    calculate_spread_and_zscore Qsqrt_floor small_config
      (candles_df (candles_1 no_rate_snapshot))
      (candles_df (candles_2 no_rate_snapshot)) = Some df
    /\ iloc_last (map z_score df) = Done (Fin q)
    /\ position_open initial_state = false
    /\ ~ ((entry_threshold small_config < q
           /\ q < sl_threshold small_config)%Q
          <-> existsb (sets_flag true)
                (trace (on_tick Qsqrt_floor small_config no_rate_snapshot
                          initial_state)) = true).
Proof.
  do 2 eexists.
  split; [vm_compute; reflexivity|].
  split; [vm_compute; reflexivity|].
  split; [reflexivity|].
  intros [H _].
  assert (Hopen : existsb (sets_flag true)
                    (trace (on_tick Qsqrt_floor small_config no_rate_snapshot
                              initial_state)) = true).
  { apply H. split; vm_compute; reflexivity. }
  vm_compute in Hopen. discriminate Hopen.
Qed.

(** An OPEN cycle on the falling frames closes. *)
Lemma C2_witness :
  position_open held_state = true
  /\ final (on_tick Qsqrt_floor small_config falling_snapshot held_state)
     = close_state held_state.
Proof.
  split; [reflexivity|].
  destruct falling_below_exit as [q [a1 [a2 [p1 [p2 [Hin Hlow]]]]]].
  destruct (C2_cycle_closes_iff_outside Qsqrt_floor small_config
              falling_snapshot held_state eq_refl) as [H _].
  destruct (H q a1 a2 p1 p2 Hin) as [Hiff _].
  apply Hiff. left. exact Hlow.
Defined.

(** C2 as stated fails: the z-score of the falling frames is below the
    exit threshold and the state is OPEN, but with no conversion rate
    the cycle warns and returns: nothing is closed. *)
Lemma C2_counterexample :
  exists df q,
    calculate_spread_and_zscore Qsqrt_floor small_config
      (candles_df (candles_1 no_rate_falling_snapshot))
      (candles_df (candles_2 no_rate_falling_snapshot)) = Some df
    /\ iloc_last (map z_score df) = Done (Fin q)
    /\ position_open held_state = true
    /\ ~ ((q < exit_threshold small_config
           \/ entry_threshold small_config < q)%Q
          <-> existsb (sets_flag false)
                (trace (on_tick Qsqrt_floor small_config
                          no_rate_falling_snapshot held_state)) = true).
Proof.
  do 2 eexists.
  split; [vm_compute; reflexivity|].
  split; [vm_compute; reflexivity|].
  split; [reflexivity|].
  intros [H _].
  assert (Hclose : existsb (sets_flag false)
                     (trace (on_tick Qsqrt_floor small_config
                               no_rate_falling_snapshot held_state)) = true).
  { apply H. left. vm_compute; reflexivity. }
  vm_compute in Hclose. discriminate Hclose.
Qed.

(** C10 as stated fails: an execution interface that answers every
    order with the empty string returns non-null references; the opening
    cycle stores them and sets the flag, and the cycle that closes the
    position clears the flag with neither close leg submitted. *)
Lemma C10_counterexample :
  let s1 := final (on_tick Qsqrt_floor small_config empty_id_snapshot
                     initial_state) in
  (forall o, place_order empty_id_snapshot o <> None)
  /\ position_open s1 = true
  /\ long_order_id s1 <> None
  /\ short_order_id s1 <> None
  /\ existsb (sets_flag false)
       (trace (on_tick Qsqrt_floor small_config empty_id_falling_snapshot s1))
     = true
  /\ ~ (count_events (is_submit CLOSE)
          (trace (on_tick Qsqrt_floor small_config
                    empty_id_falling_snapshot s1)) = 2%nat).
Proof.
  cbv zeta.
  split; [intros o; discriminate|].
  split; [vm_compute; reflexivity|].
  split; [vm_compute; discriminate|].
  split; [vm_compute; discriminate|].
  split; [vm_compute; reflexivity|].
  vm_compute. discriminate.
Qed.

(** Three cycles on the rising frames: open, close, open. *)
Lemma in_band_zscore_flaps_witness :
  map decision_of
      (snd (run Qsqrt_floor small_config
              [rising_snapshot; rising_snapshot; rising_snapshot]
              initial_state))
  = [OPEN_LONG1_SHORT2; CLOSE_BOTH; OPEN_LONG1_SHORT2].
Proof.
  apply (in_band_zscore_flaps Qsqrt_floor small_config
           [rising_snapshot; rising_snapshot; rising_snapshot]
           initial_state).
  repeat constructor; apply rising_in_band.
Defined.

(** [exit = 2 > entry = 1]: the rising frames, with a z-score of about
    1.15, close an open position. *)
Lemma crossed_thresholds_witness :
  final (on_tick Qsqrt_floor crossed_small_config rising_snapshot held_state)
  = close_state held_state.
Proof.
  destruct rising_in_band as [q [a1 [a2 [p1 [p2 [Hin _]]]]]].
  rewrite (crossed_thresholds_always_close Qsqrt_floor crossed_small_config
             rising_snapshot held_state (Fin q) a1 a2 p1 p2).
  - reflexivity.
  - reflexivity.
  - exact Hin.
  - reflexivity.
  - reflexivity.
Defined.

(** Two feeds of three candles each, ten minutes apart: nothing to
    compute. *)
Lemma no_common_timestamp_witness :
  calculate_spread_and_zscore Qsqrt_floor small_config
    (candles_df (candles_1 rising_snapshot)) late_candles = None.
Proof.
  apply (no_common_timestamp_not_ready Qsqrt_floor small_config
           (candles_df (candles_1 rising_snapshot)) late_candles).
  - intros c1 c2 H1 H2. cbn in H1, H2.
    destruct H1 as [<-|[<-|[<-|[]]]];
      destruct H2 as [<-|[<-|[<-|[]]]]; discriminate.
  - cbn. lia.
Defined.

(* ================================================================== *)
(** * Warm-up and causality of the frame *)

Section FrameShape.

Variable Qsqrt : Q -> Q.
Variable cfg : config.


(** X21.  No look-ahead: two merged frames that agree on their rows up
    to and including row [i] give the same row [i], whatever follows. *)
Theorem no_look_ahead
        (df df' : list merged_row) (rows rows' : list row) (i : nat) :
  spread_zscore Qsqrt cfg df = Some rows ->
  spread_zscore Qsqrt cfg df' = Some rows' ->
  firstn (S i) df' = firstn (S i) df ->
  nth_error rows' i = nth_error rows i.
Proof.
  intros Hrows Hrows' Hpre.
  pose proof (nth_error_prefix df df' i Hpre) as Hnth.
  destruct (nth_error df i) as [a|] eqn:Ha.
  - rewrite (spread_zscore_row Qsqrt cfg df rows i a Hrows Ha).
    rewrite (spread_zscore_row Qsqrt cfg df' rows' i a Hrows' Hnth).
    pose proof (spread_col_prefix cfg df df' (S i) Hpre) as Hsp.
    rewrite !(stat_at_prefix _ _ _ _ i Hsp). reflexivity.
  - assert (H1 : nth_error rows i = None).
    { apply nth_error_None.
      rewrite (spread_zscore_length Qsqrt cfg df rows Hrows).
      now apply nth_error_None. }
    assert (H2 : nth_error rows' i = None).
    { apply nth_error_None.
      rewrite (spread_zscore_length Qsqrt cfg df' rows' Hrows').
      now apply nth_error_None. }
    congruence.
Qed.

End FrameShape.


(** The level frame and the frame with a gap share their first row. *)
Lemma no_look_ahead_witness :
  exists rows rows',
    spread_zscore Qsqrt_floor small_config still_frame = Some rows
    /\ spread_zscore Qsqrt_floor small_config gap_frame = Some rows'
    /\ nth_error rows' 0 = nth_error rows 0.
Proof.
  do 2 eexists.
  split; [vm_compute; reflexivity|].
  split; [vm_compute; reflexivity|].
  eapply (no_look_ahead Qsqrt_floor small_config still_frame gap_frame).
  - vm_compute; reflexivity.
  - vm_compute; reflexivity.
  - reflexivity.
Defined.
